(** * h2c torture-test generator ([generate.py]): model and verification

    The generator expands one scale parameter [n] into [n] releases of
    Kubernetes manifests.  Python integers are modelled as [Z], Python
    strings as [string] (a sequence of bytes), Python lists of strings as
    [list string], and the mutable objects of the interpreter (the list
    objects [cm_names], [fqdns] and [docs]) as cells of an explicit store. *)

From Stdlib Require Import ZArith Decimal DecimalString DecimalN Ascii.
From stdpp Require Import base numbers list strings gmap.

Local Open Scope Z_scope.

(** ** Python primitives used by the generator *)

(** The line feed (escape [\n]) and the double quote (escaped inside the
    source's string literals), as one-character strings. *)
Definition LF : string := String "010" "".
Definition DQ : string := String "034" "".

(** [range(n)]: the integers [0, 1, ..., n-1]; empty when [n <= 0]. *)
Definition range (n : Z) : list Z := seqZ 0 n.

(** [len(l)] as a Python integer. *)
Definition len {A} (l : list A) : Z := Z.of_nat (length l).

(** [enumerate(l)]: every element paired with its position. *)
Definition enumerate {A} (l : list A) : list (Z * A) := zip (range (len l)) l.

(** [sep.join(parts)]. *)
Definition join (sep : string) (parts : list string) : string :=
  String.concat sep parts.

(** [str(m)] for a natural number [m]: its decimal digits. *)
Definition digits (m : N) : string := NilEmpty.string_of_uint (N.to_uint m).

(** [k] copies of the character [0]. *)
Fixpoint zeros (k : nat) : string :=
  match k with
  | O => ""
  | S k' => String "0" (zeros k')
  end.

(** The format specification [{z:0Wd}] ([W] is [width]): sign-aware zero
    padding to a minimal total width; a number that needs more characters is
    printed in full.  The plain replacement field [{z}] is [fmt_d 0 z]. *)
Definition fmt_d (width : nat) (z : Z) : string :=
  let ds := digits (Z.abs_N z) in
  if z <? 0
  then "-" +:+ zeros (width - 1 - String.length ds) +:+ ds
  else zeros (width - String.length ds) +:+ ds.

(** ** Name derivation *)

(** [f"r{r:03d}-config-{i:03d}"] *)
Definition configmap_name (r i : Z) : string :=
  "r" +:+ fmt_d 3 r +:+ "-config-" +:+ fmt_d 3 i.

(** [f"r{r:03d}-app-{i:03d}.default.svc.cluster.local"] *)
Definition service_fqdn (r i : Z) : string :=
  "r" +:+ fmt_d 3 r +:+ "-app-" +:+ fmt_d 3 i +:+ ".default.svc.cluster.local".

(** The comprehension [[e for r in range(n) for i in range(n)]] is a nested
    loop, outer variable first. *)
Definition all_configmap_names (n : Z) : list string :=
  r ← range n; i ← range n; [configmap_name r i].

Definition all_service_fqdns (n : Z) : list string :=
  r ← range n; i ← range n; [service_fqdn r i].

(** ** Release document assembly *)

(** [prefix = f"r{release_idx:03d}"] *)
Definition prefix (release_idx : Z) : string := "r" +:+ fmt_d 3 release_idx.

Definition configmap_doc (release_idx i : Z) : string :=
  let prefix := prefix release_idx in
  "apiVersion: v1" +:+ LF +:+
  "kind: ConfigMap" +:+ LF +:+
  "metadata:" +:+ LF +:+
  "  name: " +:+ prefix +:+ "-config-" +:+ fmt_d 3 i +:+ LF +:+
  "  namespace: default" +:+ LF +:+
  "data:" +:+ LF +:+
  "  SETTING_A: " +:+ DQ +:+ "value-a-" +:+ fmt_d 0 release_idx +:+ "-" +:+ fmt_d 0 i +:+ DQ +:+ LF +:+
  "  SETTING_B: " +:+ DQ +:+ "value-b-" +:+ fmt_d 0 release_idx +:+ "-" +:+ fmt_d 0 i +:+ DQ +:+ LF +:+
  "  config.yaml: |" +:+ LF +:+
  "    key: release-" +:+ fmt_d 0 release_idx +:+ "-cm-" +:+ fmt_d 0 i +:+ LF.

Definition secret_doc (release_idx i : Z) : string :=
  let prefix := prefix release_idx in
  "apiVersion: v1" +:+ LF +:+
  "kind: Secret" +:+ LF +:+
  "metadata:" +:+ LF +:+
  "  name: " +:+ prefix +:+ "-secret-" +:+ fmt_d 3 i +:+ LF +:+
  "  namespace: default" +:+ LF +:+
  "type: Opaque" +:+ LF +:+
  "data:" +:+ LF +:+
  "  password: cGFzc3dvcmQ=" +:+ LF +:+
  "  token: dG9rZW4xMjM=" +:+ LF.

(** One entry of the [volume_mounts] generator. *)
Definition volume_mount_entry (idx : Z) : string :=
  "            - name: cm-" +:+ fmt_d 4 idx +:+ LF +:+
  "              mountPath: /etc/config/" +:+ fmt_d 4 idx +:+ LF +:+
  "              readOnly: true".

Definition volume_mounts (cm_names : list string) : string :=
  join LF (volume_mount_entry <$> range (len cm_names)).

(** One entry of the [volumes] generator. *)
Definition volume_entry (idx : Z) (name : string) : string :=
  "        - name: cm-" +:+ fmt_d 4 idx +:+ LF +:+
  "          configMap:" +:+ LF +:+
  "            name: " +:+ name.

Definition volumes (cm_names : list string) : string :=
  join LF ((λ '(idx, name), volume_entry idx name) <$> enumerate cm_names).

(** One entry of the [env_vars] generator. *)
Definition env_var_entry (idx : Z) (fqdn : string) : string :=
  "            - name: SVC_" +:+ fmt_d 4 idx +:+ LF +:+
  "              value: " +:+ DQ +:+ "http://" +:+ fqdn +:+ ":8080/api" +:+ DQ.

Definition env_vars (fqdns : list string) : string :=
  join LF ((λ '(idx, fqdn), env_var_entry idx fqdn) <$> enumerate fqdns).

(** One entry of the [env_from] generator. *)
Definition env_from_entry (release_idx j : Z) : string :=
  let prefix := prefix release_idx in
  "            - secretRef:" +:+ LF +:+
  "                name: " +:+ prefix +:+ "-secret-" +:+ fmt_d 3 j.

Definition env_from (release_idx n : Z) : string :=
  join LF (env_from_entry release_idx <$> range n).

(** The Deployment template, instantiated with the four joined blocks. *)
Definition deployment_text
    (release_idx i : Z) (env_vars env_from volume_mounts volumes : string)
    : string :=
  let prefix := prefix release_idx in
  "apiVersion: apps/v1" +:+ LF +:+
  "kind: Deployment" +:+ LF +:+
  "metadata:" +:+ LF +:+
  "  name: " +:+ prefix +:+ "-app-" +:+ fmt_d 3 i +:+ LF +:+
  "  namespace: default" +:+ LF +:+
  "  labels:" +:+ LF +:+
  "    app: " +:+ prefix +:+ "-app-" +:+ fmt_d 3 i +:+ LF +:+
  "spec:" +:+ LF +:+
  "  replicas: 1" +:+ LF +:+
  "  selector:" +:+ LF +:+
  "    matchLabels:" +:+ LF +:+
  "      app: " +:+ prefix +:+ "-app-" +:+ fmt_d 3 i +:+ LF +:+
  "  template:" +:+ LF +:+
  "    metadata:" +:+ LF +:+
  "      labels:" +:+ LF +:+
  "        app: " +:+ prefix +:+ "-app-" +:+ fmt_d 3 i +:+ LF +:+
  "    spec:" +:+ LF +:+
  "      initContainers:" +:+ LF +:+
  "        - name: init" +:+ LF +:+
  "          image: busybox:1.36" +:+ LF +:+
  "          command: ['sh', '-c', 'echo init-" +:+ prefix +:+ "-" +:+ fmt_d 0 i +:+ "']" +:+ LF +:+
  "      containers:" +:+ LF +:+
  "        - name: main" +:+ LF +:+
  "          image: nginx:1.27-alpine" +:+ LF +:+
  "          ports:" +:+ LF +:+
  "            - containerPort: 8080" +:+ LF +:+
  "          env:" +:+ LF +:+
  env_vars +:+ LF +:+
  "          envFrom:" +:+ LF +:+
  env_from +:+ LF +:+
  "          volumeMounts:" +:+ LF +:+
  volume_mounts +:+ LF +:+
  "        - name: sidecar" +:+ LF +:+
  "          image: busybox:1.36" +:+ LF +:+
  "          command: ['sh', '-c', 'sleep infinity']" +:+ LF +:+
  "      volumes:" +:+ LF +:+
  volumes +:+ LF.

(** The document appended by iteration [i] of the Deployment loop. *)
Definition deployment_doc
    (release_idx n : Z) (cm_names fqdns : list string) (i : Z) : string :=
  let volume_mounts := volume_mounts cm_names in
  let volumes := volumes cm_names in
  let env_vars := env_vars fqdns in
  let env_from := env_from release_idx n in
  deployment_text release_idx i env_vars env_from volume_mounts volumes.

Definition service_doc (release_idx i : Z) : string :=
  let prefix := prefix release_idx in
  "apiVersion: v1" +:+ LF +:+
  "kind: Service" +:+ LF +:+
  "metadata:" +:+ LF +:+
  "  name: " +:+ prefix +:+ "-app-" +:+ fmt_d 3 i +:+ LF +:+
  "  namespace: default" +:+ LF +:+
  "spec:" +:+ LF +:+
  "  type: ClusterIP" +:+ LF +:+
  "  ports:" +:+ LF +:+
  "    - port: 8080" +:+ LF +:+
  "      targetPort: 8080" +:+ LF +:+
  "  selector:" +:+ LF +:+
  "    app: " +:+ prefix +:+ "-app-" +:+ fmt_d 3 i +:+ LF.

(** One entry of the [paths] generator. *)
Definition path_entry (release_idx i : Z) : string :=
  let prefix := prefix release_idx in
  "          - path: /svc-" +:+ fmt_d 3 i +:+ LF +:+
  "            pathType: Prefix" +:+ LF +:+
  "            backend:" +:+ LF +:+
  "              service:" +:+ LF +:+
  "                name: " +:+ prefix +:+ "-app-" +:+ fmt_d 3 i +:+ LF +:+
  "                port:" +:+ LF +:+
  "                  number: 8080".

Definition paths (release_idx n : Z) : string :=
  join LF (path_entry release_idx <$> range n).

Definition ingress_doc (release_idx n : Z) : string :=
  let prefix := prefix release_idx in
  let paths := paths release_idx n in
  "apiVersion: networking.k8s.io/v1" +:+ LF +:+
  "kind: Ingress" +:+ LF +:+
  "metadata:" +:+ LF +:+
  "  name: " +:+ prefix +:+ "-ingress" +:+ LF +:+
  "  namespace: default" +:+ LF +:+
  "  annotations:" +:+ LF +:+
  "    kubernetes.io/ingress.class: haproxy" +:+ LF +:+
  "spec:" +:+ LF +:+
  "  rules:" +:+ LF +:+
  "    - host: " +:+ prefix +:+ ".example.com" +:+ LF +:+
  "      http:" +:+ LF +:+
  "        paths:" +:+ LF +:+
  paths +:+ LF.

(** [for i in range(n): docs.append(doc(i))] *)
Definition append_each (doc : Z → string) (n : Z) (docs : list string)
    : list string :=
  foldl (λ docs i, docs ++ [doc i]) docs (range n).

(** The list [docs] at the [return] statement of [generate_release]. *)
Definition release_docs
    (release_idx n : Z) (cm_names fqdns : list string) : list string :=
  let docs := [] in
  let docs := append_each (configmap_doc release_idx) n docs in
  let docs := append_each (secret_doc release_idx) n docs in
  let docs := append_each (deployment_doc release_idx n cm_names fqdns) n docs in
  let docs := append_each (service_doc release_idx) n docs in
  docs ++ [ingress_doc release_idx n].

Definition generate_release
    (release_idx n : Z) (cm_names fqdns : list string) : string :=
  join ("---" +:+ LF) (release_docs release_idx n cm_names fqdns).

(** ** The interpreter's store and the orchestration layer

    [cm_names], [fqdns] and [docs] are Python list objects: mutable cells
    reached through references.  The store maps each reference to the
    current contents of its list; the trace records, in order, what the
    program asks of its environment. *)
Module Py.

Definition loc := positive.

Inductive event :=
  | Stdout (text : string)             (* print(text) *)
  | Stderr (text : string)             (* print(text, file=sys.stderr) *)
  | Makedirs (path : string)           (* os.makedirs(path, exist_ok=True) *)
  | WriteFile (path content : string). (* open(path, "w") ... f.write(content) *)

Record state := State { heap : gmap loc (list string); trace : list event }.

Inductive result (A : Type) :=
  | Val (a : A)          (* normal completion *)
  | SysExit (code : Z)   (* sys.exit(code) *)
  | Fault.               (* use of a reference that names no list *)
Arguments Val {A} a.
Arguments SysExit {A} code.
Arguments Fault {A}.

Definition M (A : Type) : Type := state → result A * state.

#[global] Instance M_ret : MRet M := λ A a σ, (Val a, σ).
#[global] Instance M_bind : MBind M := λ A B k m σ,
  match m σ with
  | (Val a, σ') => k a σ'
  | (SysExit code, σ') => (SysExit code, σ')
  | (Fault, σ') => (Fault, σ')
  end.

(** A list display or comprehension: a new list object. *)
Definition new_list (l : list string) : M loc := λ σ,
  let ℓ := fresh (dom (heap σ)) in
  (Val ℓ, State (<[ℓ := l]> (heap σ)) (trace σ)).

(** Reading a list object ([len], iteration, [join]). *)
Definition read_list (ℓ : loc) : M (list string) := λ σ,
  match heap σ !! ℓ with
  | Some l => (Val l, σ)
  | None => (Fault, σ)
  end.

(** [ℓ.append(x)]: in-place update of the list object. *)
Definition list_append (ℓ : loc) (x : string) : M unit := λ σ,
  match heap σ !! ℓ with
  | Some l => (Val (), State (<[ℓ := l ++ [x]]> (heap σ)) (trace σ))
  | None => (Fault, σ)
  end.

Definition emit (e : event) : M unit := λ σ,
  (Val (), State (heap σ) (trace σ ++ [e])).

Definition sys_exit {A} (code : Z) : M A := λ σ, (SysExit code, σ).

(** [for x in xs: body(x)] *)
Fixpoint for_each {A} (xs : list A) (body : A → M unit) : M unit :=
  match xs with
  | [] => mret ()
  | x :: xs' => body x;; for_each xs' body
  end.

Definition all_configmap_names (n : Z) : M loc :=
  new_list (r ← range n; i ← range n; [configmap_name r i]).

Definition all_service_fqdns (n : Z) : M loc :=
  new_list (r ← range n; i ← range n; [service_fqdn r i]).

Definition generate_release (release_idx n : Z) (cm_names fqdns : loc)
    : M string :=
  docs ← new_list [];
  for_each (range n) (λ i,
    list_append docs (configmap_doc release_idx i));;
  for_each (range n) (λ i,
    list_append docs (secret_doc release_idx i));;
  for_each (range n) (λ i,
    cm ← read_list cm_names; let volume_mounts := volume_mounts cm in
    cm ← read_list cm_names; let volumes := volumes cm in
    fq ← read_list fqdns; let env_vars := env_vars fq in
    let env_from := env_from release_idx n in
    list_append docs
      (deployment_text release_idx i env_vars env_from volume_mounts volumes));;
  for_each (range n) (λ i,
    list_append docs (service_doc release_idx i));;
  list_append docs (ingress_doc release_idx n);;
  ds ← read_list docs; mret (join ("---" +:+ LF) ds).

(** [os.path.join(a, b)] of [posixpath]. *)
Fixpoint ends_with_slash (s : string) : bool :=
  match s with
  | "" => false
  | String c "" => Ascii.eqb c "/"
  | String _ s' => ends_with_slash s'
  end.

Definition path_join (a b : string) : string :=
  if String.prefix "/" b then b
  else if String.eqb a "" || ends_with_slash a then a +:+ b
  else a +:+ "/" +:+ b.

(** [o or d] for an optional string [o]: [None] and the empty string are
    false. *)
Definition or_default (o : option string) (d : string) : string :=
  match o with
  | Some s => if String.eqb s "" then d else s
  | None => d
  end.

(** The superscript four of the cost summary, in UTF-8. *)
Definition SUP4 : string := String "226" (String "129" (String "180" "")).

(** [main], after [argparse] has produced [args.n] (an integer) and
    [args.output] ([None] when the flag is absent). *)
Definition main (args_n : Z) (args_output : option string) : M unit :=
  let n := args_n in
  (if n <? 1
   then emit (Stderr "Error: n must be >= 1");; sys_exit 1
   else mret ());;
  let output :=
    or_default args_output ("/tmp/h2c-torture-" +:+ fmt_d 0 n +:+ "/manifests") in
  emit (Makedirs output);;
  let total_deploy := n * n in
  let total_cm := n * n in
  let total_mounts := total_deploy * total_cm in
  let total_env_rewrites := total_deploy * total_deploy in
  emit (Stdout ("Generating torture test: n=" +:+ fmt_d 0 n));;
  emit (Stdout ("  " +:+ fmt_d 0 total_deploy +:+ " deployments, " +:+ fmt_d 0 total_cm +:+ " configmaps, " +:+ fmt_d 0 total_deploy +:+ " services"));;
  emit (Stdout ("  " +:+ fmt_d 0 total_mounts +:+ " configmap mount resolutions (n" +:+ SUP4 +:+ ")"));;
  emit (Stdout ("  " +:+ fmt_d 0 total_env_rewrites +:+ " env FQDN rewrites (n" +:+ SUP4 +:+ ")"));;
  emit (Stdout ("  Output: " +:+ output));;
  cm_names ← all_configmap_names n;
  fqdns ← all_service_fqdns n;
  for_each (range n) (λ release_idx,
    let release_dir := path_join output ("release-" +:+ fmt_d 3 release_idx) in
    emit (Makedirs release_dir);;
    content ← generate_release release_idx n cm_names fqdns;
    let manifest_path := path_join release_dir "manifests.yaml" in
    emit (WriteFile manifest_path content));;
  emit (Stdout ("Done. " +:+ fmt_d 0 n +:+ " release directories written to " +:+ output)).

(** A run of the program from a store [h]: the exit status of the process
    and the events it produced.  An uncaught error ends the process with
    status 1. *)
Definition run (h : gmap loc (list string)) (prog : M unit) : Z * list event :=
  match prog (State h []) with
  | (Val _, σ) => (0, trace σ)
  | (SysExit code, σ) => (code, trace σ)
  | (Fault, σ) => (1, trace σ)
  end.

End Py.

(** ** Reading the emitted text

    The properties of the manifests are stated on the lines of the text,
    the way a reader of the YAML sees them. *)

(** [text.split(LF)]: the lines of a text. *)
Fixpoint lines (s : string) : list string :=
  match s with
  | "" => [""]
  | String c s' =>
      if Ascii.eqb c "010" then "" :: lines s'
      else match lines s' with
           | l :: ls => String c l :: ls
           | [] => [String c ""]
           end
  end.

(** [s.startswith(p)] *)
Fixpoint starts_with (p s : string) : bool :=
  match p with
  | "" => true
  | String a p' =>
      match s with
      | "" => false
      | String b s' => Ascii.eqb a b && starts_with p' s'
      end
  end.

(** A string that fits on one line. *)
Fixpoint newline_free (s : string) : bool :=
  match s with
  | "" => true
  | String c s' => negb (Ascii.eqb c "010") && newline_free s'
  end.

(** [following k p ls]: for every line of [ls] that satisfies [p], in order,
    the line found [k] lines below it.  [following 0 p ls] selects the lines
    that satisfy [p]. *)
Fixpoint following (k : nat) (p : string → bool) (ls : list string)
    : list string :=
  match ls with
  | [] => []
  | l :: ls' =>
      (if p l then option_list ((l :: ls') !! k) else []) ++ following k p ls'
  end.

Definition count_lines (p : string → bool) (ls : list string) : nat :=
  length (following 0 p ls).

(** [closed k p ls]: every line of [ls] that satisfies [p] has its [k]-th
    successor inside [ls]. *)
Fixpoint closed (k : nat) (p : string → bool) (ls : list string) : bool :=
  match ls with
  | [] => true
  | l :: ls' => (if p l then (k <=? length ls')%nat else true)
                && closed k p ls'
  end.

(** [has_block blk ls]: the lines [blk] are found in [ls], one after the
    other. *)
Definition has_block (blk ls : list string) : Prop :=
  ∃ pre post, ls = pre ++ blk ++ post.

(** The second line of a document: its [kind:] field. *)
Definition kind_of (doc : string) : option string := lines doc !! 1%nat.

(** The contents written to files during a run, in order. *)
Definition written (tr : list Py.event) : list string :=
  tr ≫= λ e, match e with Py.WriteFile _ content => [content] | _ => [] end.


(** The file-system requests of a run. *)
Definition touches_fs (e : Py.event) : bool :=
  match e with
  | Py.Makedirs _ | Py.WriteFile _ _ => true
  | _ => false
  end.

(** The events of a run that ask something of the file system, in order. *)
Definition fs_events (tr : list Py.event) : list Py.event :=
  List.filter touches_fs tr.

(** ** The documents as sequences of lines

    Each document is a sequence of lines, every one ended by a line feed. *)

Definition unlines (ls : list string) : string :=
  foldr (λ l s, l +:+ LF +:+ s) "" ls.

(** A joined block followed by a line feed: its entries' lines, or one
    empty line when there is no entry. *)
Definition block (ls : list string) : list string :=
  match ls with
  | [] => [""]
  | _ => ls
  end.

Definition configmap_lines (release_idx i : Z) : list string :=
  ["apiVersion: v1";
   "kind: ConfigMap";
   "metadata:";
   "  name: " +:+ prefix release_idx +:+ "-config-" +:+ fmt_d 3 i;
   "  namespace: default";
   "data:";
   "  SETTING_A: " +:+ DQ +:+ "value-a-" +:+ fmt_d 0 release_idx +:+ "-" +:+ fmt_d 0 i +:+ DQ;
   "  SETTING_B: " +:+ DQ +:+ "value-b-" +:+ fmt_d 0 release_idx +:+ "-" +:+ fmt_d 0 i +:+ DQ;
   "  config.yaml: |";
   "    key: release-" +:+ fmt_d 0 release_idx +:+ "-cm-" +:+ fmt_d 0 i].

Definition secret_lines (release_idx i : Z) : list string :=
  ["apiVersion: v1";
   "kind: Secret";
   "metadata:";
   "  name: " +:+ prefix release_idx +:+ "-secret-" +:+ fmt_d 3 i;
   "  namespace: default";
   "type: Opaque";
   "data:";
   "  password: cGFzc3dvcmQ=";
   "  token: dG9rZW4xMjM="].

Definition volume_mount_lines (idx : Z) : list string :=
  ["            - name: cm-" +:+ fmt_d 4 idx;
   "              mountPath: /etc/config/" +:+ fmt_d 4 idx;
   "              readOnly: true"].

Definition volume_lines (idx : Z) (name : string) : list string :=
  ["        - name: cm-" +:+ fmt_d 4 idx;
   "          configMap:";
   "            name: " +:+ name].

Definition env_var_lines (idx : Z) (fqdn : string) : list string :=
  ["            - name: SVC_" +:+ fmt_d 4 idx;
   "              value: " +:+ DQ +:+ "http://" +:+ fqdn +:+ ":8080/api" +:+ DQ].

Definition env_from_lines (release_idx j : Z) : list string :=
  ["            - secretRef:";
   "                name: " +:+ prefix release_idx +:+ "-secret-" +:+ fmt_d 3 j].

Definition deployment_head (release_idx i : Z) : list string :=
  ["apiVersion: apps/v1";
   "kind: Deployment";
   "metadata:";
   "  name: " +:+ prefix release_idx +:+ "-app-" +:+ fmt_d 3 i;
   "  namespace: default";
   "  labels:";
   "    app: " +:+ prefix release_idx +:+ "-app-" +:+ fmt_d 3 i;
   "spec:";
   "  replicas: 1";
   "  selector:";
   "    matchLabels:";
   "      app: " +:+ prefix release_idx +:+ "-app-" +:+ fmt_d 3 i;
   "  template:";
   "    metadata:";
   "      labels:";
   "        app: " +:+ prefix release_idx +:+ "-app-" +:+ fmt_d 3 i;
   "    spec:";
   "      initContainers:";
   "        - name: init";
   "          image: busybox:1.36";
   "          command: ['sh', '-c', 'echo init-" +:+ prefix release_idx +:+ "-" +:+ fmt_d 0 i +:+ "']";
   "      containers:";
   "        - name: main";
   "          image: nginx:1.27-alpine";
   "          ports:";
   "            - containerPort: 8080";
   "          env:"].

Definition deployment_sidecar : list string :=
  ["        - name: sidecar";
   "          image: busybox:1.36";
   "          command: ['sh', '-c', 'sleep infinity']";
   "      volumes:"].

Definition deployment_lines
    (release_idx n : Z) (cm_names fqdns : list string) (i : Z) : list string :=
  deployment_head release_idx i
  ++ block (x ← enumerate fqdns; env_var_lines x.1 x.2)
  ++ ["          envFrom:"]
  ++ block (j ← range n; env_from_lines release_idx j)
  ++ ["          volumeMounts:"]
  ++ block (idx ← range (len cm_names); volume_mount_lines idx)
  ++ deployment_sidecar
  ++ block (x ← enumerate cm_names; volume_lines x.1 x.2).

Definition service_lines (release_idx i : Z) : list string :=
  ["apiVersion: v1";
   "kind: Service";
   "metadata:";
   "  name: " +:+ prefix release_idx +:+ "-app-" +:+ fmt_d 3 i;
   "  namespace: default";
   "spec:";
   "  type: ClusterIP";
   "  ports:";
   "    - port: 8080";
   "      targetPort: 8080";
   "  selector:";
   "    app: " +:+ prefix release_idx +:+ "-app-" +:+ fmt_d 3 i].

Definition path_lines (release_idx i : Z) : list string :=
  ["          - path: /svc-" +:+ fmt_d 3 i;
   "            pathType: Prefix";
   "            backend:";
   "              service:";
   "                name: " +:+ prefix release_idx +:+ "-app-" +:+ fmt_d 3 i;
   "                port:";
   "                  number: 8080"].

Definition ingress_head (release_idx : Z) : list string :=
  ["apiVersion: networking.k8s.io/v1";
   "kind: Ingress";
   "metadata:";
   "  name: " +:+ prefix release_idx +:+ "-ingress";
   "  namespace: default";
   "  annotations:";
   "    kubernetes.io/ingress.class: haproxy";
   "spec:";
   "  rules:";
   "    - host: " +:+ prefix release_idx +:+ ".example.com";
   "      http:";
   "        paths:"].

Definition ingress_lines (release_idx n : Z) : list string :=
  ingress_head release_idx
  ++ block (i ← range n; path_lines release_idx i).

(** The documents of a release, each as its lines. *)
Definition release_lines
    (release_idx n : Z) (cm_names fqdns : list string) : list (list string) :=
  (configmap_lines release_idx <$> range n)
  ++ (secret_lines release_idx <$> range n)
  ++ (deployment_lines release_idx n cm_names fqdns <$> range n)
  ++ (service_lines release_idx <$> range n)
  ++ [ingress_lines release_idx n].

(** Documents put one after the other, a three-dash line between two
    consecutive ones. *)
Definition separated (lss : list (list string)) : list string :=
  match lss with
  | [] => []
  | ls :: rest => ls ++ (ls' ← rest; "---" :: ls')
  end.

(** ** Reading decimal numbers *)

Definition is_digit (c : ascii) : bool :=
  (48 <=? nat_of_ascii c)%nat && (nat_of_ascii c <=? 57)%nat.

Fixpoint all_digits (s : string) : bool :=
  match s with
  | "" => true
  | String c s' => is_digit c && all_digits s'
  end.

(** The number written by a string of decimal digits, leading zeros
    allowed. *)
Definition decimal_value (s : string) : option N :=
  N.of_uint <$> NilEmpty.uint_of_string s.

(** * Verification *)

(** ** Sample values *)

Example fmt_d_samples :
  [fmt_d 3 0; fmt_d 3 7; fmt_d 3 42; fmt_d 3 999; fmt_d 3 1000; fmt_d 4 15;
   fmt_d 3 (-1); fmt_d 3 (-12); fmt_d 3 (-123); fmt_d 0 0; fmt_d 0 (-5)]
  = ["000"; "007"; "042"; "999"; "1000"; "0015";
     "-01"; "-12"; "-123"; "0"; "-5"].
Proof. reflexivity. Qed.

Example all_configmap_names_2 :
  all_configmap_names 2 =
  ["r000-config-000"; "r000-config-001"; "r001-config-000"; "r001-config-001"].
Proof. reflexivity. Qed.

Example ingress_doc_sample :
  lines (ingress_doc 7 2) =
  ["apiVersion: networking.k8s.io/v1";
   "kind: Ingress";
   "metadata:";
   "  name: r007-ingress";
   "  namespace: default";
   "  annotations:";
   "    kubernetes.io/ingress.class: haproxy";
   "spec:";
   "  rules:";
   "    - host: r007.example.com";
   "      http:";
   "        paths:";
   "          - path: /svc-000";
   "            pathType: Prefix";
   "            backend:";
   "              service:";
   "                name: r007-app-000";
   "                port:";
   "                  number: 8080";
   "          - path: /svc-001";
   "            pathType: Prefix";
   "            backend:";
   "              service:";
   "                name: r007-app-001";
   "                port:";
   "                  number: 8080";
   ""].
Proof. reflexivity. Qed.

Example release_docs_sample :
  kind_of <$> release_docs 0 1 (all_configmap_names 1) (all_service_fqdns 1) =
  [Some "kind: ConfigMap"; Some "kind: Secret"; Some "kind: Deployment";
   Some "kind: Service"; Some "kind: Ingress"].
Proof. reflexivity. Qed.

Example path_join_samples :
  [Py.path_join "/tmp/foo" "release-000"; Py.path_join "/tmp/foo/" "release-000";
   Py.path_join "/tmp/foo/release-000" "manifests.yaml"]
  = ["/tmp/foo/release-000"; "/tmp/foo/release-000";
     "/tmp/foo/release-000/manifests.yaml"].
Proof. reflexivity. Qed.

Example main_sample_events :
  (λ e, match e with
        | Py.Makedirs path => "mkdir " +:+ path
        | Py.WriteFile path _ => "write " +:+ path
        | Py.Stdout text => "out " +:+ text
        | Py.Stderr text => "err " +:+ text
        end) <$> (Py.run ∅ (Py.main 2 None)).2
  = ["mkdir /tmp/h2c-torture-2/manifests";
     "out Generating torture test: n=2";
     "out   4 deployments, 4 configmaps, 4 services";
     "out   16 configmap mount resolutions (n" +:+ Py.SUP4 +:+ ")";
     "out   16 env FQDN rewrites (n" +:+ Py.SUP4 +:+ ")";
     "out   Output: /tmp/h2c-torture-2/manifests";
     "mkdir /tmp/h2c-torture-2/manifests/release-000";
     "write /tmp/h2c-torture-2/manifests/release-000/manifests.yaml";
     "mkdir /tmp/h2c-torture-2/manifests/release-001";
     "write /tmp/h2c-torture-2/manifests/release-001/manifests.yaml";
     "out Done. 2 release directories written to /tmp/h2c-torture-2/manifests"].
Proof. vm_compute. reflexivity. Qed.

(** ** Strings *)

Lemma app_cons_s (x : ascii) (a b : string) :
  String x a +:+ b = String x (a +:+ b).
Proof. reflexivity. Qed.

Lemma app_assoc_s (a b c : string) : (a +:+ b) +:+ c = a +:+ b +:+ c.
Proof.
  induction a as [|x a IH]; [done|].
  by rewrite !app_cons_s, IH.
Qed.

Lemma app_nil_r_s (a : string) : a +:+ "" = a.
Proof.
  induction a as [|x a IH]; [done|].
  by rewrite app_cons_s, IH.
Qed.

Lemma unlines_cons (l : string) (ls : list string) :
  unlines (l :: ls) = l +:+ LF +:+ unlines ls.
Proof. done. Qed.

Lemma unlines_app (xs ys : list string) :
  unlines (xs ++ ys) = unlines xs +:+ unlines ys.
Proof.
  induction xs as [|x xs IH]; [done|].
  rewrite <- app_comm_cons, !unlines_cons, IH.
  by rewrite !app_assoc_s.
Qed.

Lemma join_cons_cons sep x y l :
  join sep (x :: y :: l) = x +:+ sep +:+ join sep (y :: l).
Proof. done. Qed.

(** A joined list of lines followed by a line feed is a block of lines. *)
Lemma join_LF_unlines (ls : list string) :
  join LF ls +:+ LF = unlines (block ls).
Proof.
  destruct ls as [|l ls]; [done|].
  revert l. induction ls as [|l' ls IH]; intros l.
  - cbn. by rewrite app_nil_r_s.
  - rewrite join_cons_cons, !app_assoc_s, IH. done.
Qed.

(** Joining entries that are themselves joined lines. *)
Lemma join_entries (ess : list (list string)) :
  Forall (λ es, es ≠ []) ess →
  join LF (join LF <$> ess) +:+ LF = unlines (block (concat ess)).
Proof.
  destruct ess as [|es ess]; [done|].
  intros Hne.
  assert (join LF (join LF <$> es :: ess) +:+ LF = unlines (concat (es :: ess)))
    as ->.
  { revert es Hne. induction ess as [|es' ess IH]; intros es Hne.
    - apply Forall_cons_1 in Hne as [Hes _].
      cbn [fmap list_fmap concat]. rewrite app_nil_r.
      change (join LF [join LF es]) with (join LF es).
      rewrite join_LF_unlines. by destruct es.
    - apply Forall_cons_1 in Hne as [Hes Hne].
      rewrite !fmap_cons, join_cons_cons, <- fmap_cons, !app_assoc_s.
      rewrite IH by done.
      rewrite <- app_assoc_s, join_LF_unlines.
      change (concat (es :: es' :: ess)) with (es ++ concat (es' :: ess)).
      rewrite unlines_app. by destruct es. }
  apply Forall_cons_1 in Hne as [Hes _].
  destruct es; [done|]. done.
Qed.

(** ** The documents are sequences of lines *)

Ltac flatten_text :=
  cbn [unlines foldr]; rewrite ?app_assoc_s, ?app_nil_r_s; reflexivity.

Lemma configmap_doc_unlines r i :
  configmap_doc r i = unlines (configmap_lines r i).
Proof. unfold configmap_doc, configmap_lines. flatten_text. Qed.

Lemma secret_doc_unlines r i :
  secret_doc r i = unlines (secret_lines r i).
Proof. unfold secret_doc, secret_lines. flatten_text. Qed.

Lemma service_doc_unlines r i :
  service_doc r i = unlines (service_lines r i).
Proof. unfold service_doc, service_lines. flatten_text. Qed.

Lemma concat_fmap_bind {A B} (f : A → list B) (xs : list A) :
  concat (f <$> xs) = xs ≫= f.
Proof. induction xs as [|x xs IH]; [done|]. cbn. by rewrite IH. Qed.

(** A block of entries, each entry being the lines [f x] joined. *)
Lemma block_entries {A} (f : A → list string) (g : A → string) (xs : list A) :
  (∀ x, g x = join LF (f x)) → (∀ x, f x ≠ []) →
  join LF (g <$> xs) +:+ LF = unlines (block (xs ≫= f)).
Proof.
  intros Hg Hf.
  rewrite <- concat_fmap_bind, <- join_entries.
  - f_equal. f_equal. rewrite <- list_fmap_compose.
    apply list_fmap_ext. intros _ x _. apply Hg.
  - apply Forall_fmap, Forall_forall. intros x _. apply Hf.
Qed.

Lemma env_vars_block fqdns :
  env_vars fqdns +:+ LF
  = unlines (block (x ← enumerate fqdns; env_var_lines x.1 x.2)).
Proof.
  unfold env_vars. apply block_entries; intros [idx fqdn]; [|done].
  unfold env_var_entry, env_var_lines. cbn [join String.concat].
  by rewrite ?app_assoc_s.
Qed.

Lemma env_from_block r n :
  env_from r n +:+ LF = unlines (block (j ← range n; env_from_lines r j)).
Proof.
  unfold env_from. apply block_entries; intros j; [|done].
  unfold env_from_entry, env_from_lines. cbn [join String.concat].
  by rewrite ?app_assoc_s.
Qed.

Lemma volume_mounts_block cm_names :
  volume_mounts cm_names +:+ LF
  = unlines (block (idx ← range (len cm_names); volume_mount_lines idx)).
Proof.
  unfold volume_mounts. apply block_entries; intros j; [|done].
  unfold volume_mount_entry, volume_mount_lines. cbn [join String.concat].
  by rewrite ?app_assoc_s.
Qed.

Lemma volumes_block cm_names :
  volumes cm_names +:+ LF
  = unlines (block (x ← enumerate cm_names; volume_lines x.1 x.2)).
Proof.
  unfold volumes. apply block_entries; intros [idx name]; [|done].
  unfold volume_entry, volume_lines. cbn [join String.concat].
  by rewrite ?app_assoc_s.
Qed.

Lemma paths_block r n :
  paths r n +:+ LF = unlines (block (i ← range n; path_lines r i)).
Proof.
  unfold paths. apply block_entries; intros j; [|done].
  unfold path_entry, path_lines. cbn [join String.concat].
  by rewrite ?app_assoc_s.
Qed.

Lemma deployment_text_unlines r i ev ef vm vol :
  deployment_text r i ev ef vm vol
  = unlines (deployment_head r i) +:+ (ev +:+ LF)
    +:+ unlines ["          envFrom:"] +:+ (ef +:+ LF)
    +:+ unlines ["          volumeMounts:"] +:+ (vm +:+ LF)
    +:+ unlines deployment_sidecar +:+ (vol +:+ LF).
Proof.
  unfold deployment_text, deployment_head, deployment_sidecar. flatten_text.
Qed.

Lemma deployment_doc_unlines r n cm_names fqdns i :
  deployment_doc r n cm_names fqdns i
  = unlines (deployment_lines r n cm_names fqdns i).
Proof.
  unfold deployment_doc, deployment_lines.
  rewrite deployment_text_unlines.
  rewrite env_vars_block, env_from_block, volume_mounts_block, volumes_block.
  by rewrite !unlines_app.
Qed.

Lemma ingress_doc_unlines r n :
  ingress_doc r n = unlines (ingress_lines r n).
Proof.
  unfold ingress_lines, ingress_head. rewrite unlines_app, <- paths_block.
  unfold ingress_doc. flatten_text.
Qed.

(** ** Lines of a text *)

Lemma lines_nonempty (s : string) : lines s ≠ [].
Proof.
  induction s as [|c s IH]; [done|].
  cbn [lines]. destruct (Ascii.eqb c "010"); [done|].
  by destruct (lines s).
Qed.

Lemma lines_app_LF (a b : string) :
  lines (a +:+ LF +:+ b) = lines a ++ lines b.
Proof.
  induction a as [|c a IH]; [done|].
  rewrite app_cons_s. cbn [lines]. rewrite IH.
  destruct (Ascii.eqb c "010"); [done|].
  pose proof (lines_nonempty a). by destruct (lines a).
Qed.

Lemma lines_newline_free (s : string) : newline_free s = true → lines s = [s].
Proof.
  induction s as [|c s IH]; [done|].
  cbn [lines newline_free]. destruct (Ascii.eqb c "010"); [done|].
  intros H. by rewrite IH.
Qed.

Lemma lines_unlines (ls : list string) :
  Forall (λ l, newline_free l = true) ls → lines (unlines ls) = ls ++ [""].
Proof.
  induction 1 as [|l ls Hl _ IH]; [done|].
  by rewrite unlines_cons, lines_app_LF, lines_newline_free, IH.
Qed.

Lemma newline_free_app (a b : string) :
  newline_free (a +:+ b) = newline_free a && newline_free b.
Proof.
  induction a as [|c a IH]; [done|].
  rewrite app_cons_s. cbn [newline_free]. rewrite IH.
  by destruct (Ascii.eqb c "010").
Qed.

Lemma newline_free_zeros k : newline_free (zeros k) = true.
Proof. induction k as [|k IH]; [done|]. cbn. done. Qed.

Lemma newline_free_digits m : newline_free (digits m) = true.
Proof.
  unfold digits. induction (N.to_uint m) as [|d IH|d IH|d IH|d IH|d IH
    |d IH|d IH|d IH|d IH|d IH]; cbn; done.
Qed.

Lemma newline_free_fmt_d w z : newline_free (fmt_d w z) = true.
Proof.
  unfold fmt_d. destruct (z <? 0);
    by rewrite !newline_free_app, newline_free_zeros, newline_free_digits.
Qed.

Lemma newline_free_prefix r : newline_free (prefix r) = true.
Proof. unfold prefix. by rewrite newline_free_app, newline_free_fmt_d. Qed.

Ltac newline_free_lines :=
  repeat first
    [ apply Forall_nil_2
    | apply Forall_cons_2
    | apply Forall_app_2
    | rewrite newline_free_app
    | rewrite newline_free_fmt_d
    | rewrite newline_free_prefix
    | match goal with H : newline_free _ = true |- _ => rewrite H end
    | reflexivity ].


(** ** Selecting lines *)

Lemma following_app k p xs ys :
  closed k p xs = true →
  following k p (xs ++ ys) = following k p xs ++ following k p ys.
Proof.
  induction xs as [|l xs IH]; [done|].
  cbn [closed]. intros [Hl Hxs]%andb_true_iff.
  rewrite <- app_comm_cons. cbn [following].
  rewrite IH, <- app_assoc by done. f_equal.
  destruct (p l); [|done].
  apply Nat.leb_le in Hl.
  by rewrite app_comm_cons, lookup_app_l by (cbn; lia).
Qed.

Lemma closed_app k p xs ys :
  closed k p xs = true → closed k p ys = true → closed k p (xs ++ ys) = true.
Proof.
  intros Hxs Hys. induction xs as [|l xs IH]; [done|].
  cbn [closed] in *. apply andb_true_iff in Hxs as [Hl Hxs].
  rewrite <- app_comm_cons. cbn [closed]. rewrite IH by done.
  destruct (p l); [|done].
  apply Nat.leb_le in Hl. rewrite andb_true_r.
  apply Nat.leb_le. rewrite length_app. lia.
Qed.

Lemma closed_bind {A} k p (f : A → list string) (xs : list A) :
  (∀ x, x ∈ xs → closed k p (f x) = true) → closed k p (xs ≫= f) = true.
Proof.
  induction xs as [|x xs IH]; intros H; [done|].
  cbn. apply closed_app; [apply H; left|].
  apply IH. intros y Hy. apply H. by right.
Qed.

Lemma following_bind {A} k p (f : A → list string) (xs : list A) :
  (∀ x, x ∈ xs → closed k p (f x) = true) →
  following k p (xs ≫= f) = xs ≫= λ x, following k p (f x).
Proof.
  induction xs as [|x xs IH]; intros H; [done|].
  cbn. rewrite following_app by (apply H; left).
  rewrite IH; [done|]. intros y Hy. apply H. by right.
Qed.

Lemma closed_block k p ls :
  p "" = false → closed k p ls = true → closed k p (block ls) = true.
Proof. intros Hp. destruct ls; [|done]. cbn. by rewrite Hp. Qed.

Lemma following_block k p ls :
  p "" = false → following k p (block ls) = following k p ls.
Proof. intros Hp. destruct ls; [|done]. cbn. by rewrite Hp. Qed.

(** Entries that all contribute exactly one line. *)
Lemma bind_singleton {A B} (f : A → list B) (g : A → B) (xs : list A) :
  (∀ x, x ∈ xs → f x = [g x]) → xs ≫= f = g <$> xs.
Proof.
  induction xs as [|x xs IH]; intros H; [done|].
  cbn. rewrite H by left. rewrite IH; [done|].
  intros y Hy. apply H. by right.
Qed.

(** Entries that contribute no line. *)
Lemma bind_nil {A B} (f : A → list B) (xs : list A) :
  (∀ x, x ∈ xs → f x = []) → xs ≫= f = [].
Proof.
  induction xs as [|x xs IH]; intros H; [done|].
  cbn. rewrite H by left. rewrite IH; [done|].
  intros y Hy. apply H. by right.
Qed.

(** ** Lines of the documents *)

Lemma enumerate_elem {A} (l : list A) idx x :
  (idx, x) ∈ enumerate l → 0 ≤ idx < len l ∧ l !! Z.to_nat idx = Some x.
Proof.
  unfold enumerate, range, len. intros [j Hj]%list_elem_of_lookup.
  apply lookup_zip_with_Some in Hj as (a & b & [= -> ->] & Ha & Hb).
  apply lookup_seqZ in Ha as [-> Hlt].
  rewrite Z.add_0_l, Nat2Z.id. split; [lia | done].
Qed.

Lemma Forall_block (P : string → Prop) ls :
  P "" → Forall P ls → Forall P (block ls).
Proof. intros. destruct ls; [by repeat constructor | done]. Qed.

Lemma deployment_lines_newline_free r n cm_names fqdns i :
  Forall (λ l, newline_free l = true) cm_names →
  Forall (λ l, newline_free l = true) fqdns →
  Forall (λ l, newline_free l = true) (deployment_lines r n cm_names fqdns i).
Proof.
  intros Hcm Hfq. unfold deployment_lines.
  repeat apply Forall_app_2;
    try (apply Forall_block; [done|]; apply Forall_bind, Forall_forall).
  - unfold deployment_head. newline_free_lines.
  - intros [idx fqdn] [_ Hin%list_elem_of_lookup_2]%enumerate_elem.
    rewrite Forall_forall in Hfq. specialize (Hfq _ Hin).
    unfold env_var_lines. cbn. newline_free_lines.
  - newline_free_lines.
  - intros j _. unfold env_from_lines. cbn. newline_free_lines.
  - newline_free_lines.
  - intros j _. unfold volume_mount_lines. cbn. newline_free_lines.
  - unfold deployment_sidecar. newline_free_lines.
  - intros [idx name] [_ Hin%list_elem_of_lookup_2]%enumerate_elem.
    rewrite Forall_forall in Hcm. specialize (Hcm _ Hin).
    unfold volume_lines. cbn. newline_free_lines.
Qed.

Lemma lines_deployment_doc r n cm_names fqdns i :
  Forall (λ l, newline_free l = true) cm_names →
  Forall (λ l, newline_free l = true) fqdns →
  lines (deployment_doc r n cm_names fqdns i)
  = deployment_lines r n cm_names fqdns i ++ [""].
Proof.
  intros. rewrite deployment_doc_unlines.
  by apply lines_unlines, deployment_lines_newline_free.
Qed.

Lemma lines_configmap_doc r i :
  lines (configmap_doc r i) = configmap_lines r i ++ [""].
Proof.
  rewrite configmap_doc_unlines. apply lines_unlines.
  unfold configmap_lines. newline_free_lines.
Qed.

Lemma lines_secret_doc r i :
  lines (secret_doc r i) = secret_lines r i ++ [""].
Proof.
  rewrite secret_doc_unlines. apply lines_unlines.
  unfold secret_lines. newline_free_lines.
Qed.

Lemma lines_service_doc r i :
  lines (service_doc r i) = service_lines r i ++ [""].
Proof.
  rewrite service_doc_unlines. apply lines_unlines.
  unfold service_lines. newline_free_lines.
Qed.

Lemma lines_ingress_doc r n :
  lines (ingress_doc r n) = ingress_lines r n ++ [""].
Proof.
  rewrite ingress_doc_unlines. apply lines_unlines.
  unfold ingress_lines, ingress_head. apply Forall_app_2; [newline_free_lines|].
  apply Forall_block; [done|]. apply Forall_bind, Forall_forall.
  intros j _. unfold path_lines. cbn. newline_free_lines.
Qed.

Lemma closed_0 p ls : closed 0 p ls = true.
Proof.
  induction ls as [|l ls IH]; [done|].
  cbn [closed]. rewrite IH. destruct (p l); [|done].
  by rewrite andb_true_r.
Qed.

(** Selection in the lines of a document that ends with a line feed. *)
Lemma following_lines k p doc ls :
  lines doc = ls ++ [""] → p "" = false → closed k p ls = true →
  following k p (lines doc) = following k p ls.
Proof.
  intros -> Hp Hls. rewrite following_app by done.
  cbn [following]. by rewrite Hp, !app_nil_r.
Qed.

(** Selection in a Deployment document, block by block. *)
Section deployment_select.
Context (k : nat) (p : string → bool).
Context (r n : Z) (cm_names fqdns : list string) (i : Z).
Hypothesis Hblank : p "" = false.
Hypothesis Hhead : closed k p (deployment_head r i) = true.
Hypothesis Henv : ∀ idx fqdn, closed k p (env_var_lines idx fqdn) = true.
Hypothesis HenvFrom : closed k p ["          envFrom:"] = true.
Hypothesis Hfrom : ∀ j, closed k p (env_from_lines r j) = true.
Hypothesis HvolumeMounts : closed k p ["          volumeMounts:"] = true.
Hypothesis Hmount : ∀ idx, closed k p (volume_mount_lines idx) = true.
Hypothesis Hsidecar : closed k p deployment_sidecar = true.
Hypothesis Hvolume : ∀ idx name, closed k p (volume_lines idx name) = true.

Lemma closed_block_bind {A} (f : A → list string) (xs : list A) :
  (∀ x, closed k p (f x) = true) → closed k p (block (xs ≫= f)) = true.
Proof. intros Hf. apply closed_block; [done|]. by apply closed_bind. Qed.

Lemma closed_deployment_lines :
  closed k p (deployment_lines r n cm_names fqdns i) = true.
Proof.
  unfold deployment_lines.
  repeat apply closed_app;
    first [ assumption | apply closed_block_bind; intros; auto ].
Qed.

Lemma following_deployment_lines :
  following k p (deployment_lines r n cm_names fqdns i)
  = following k p (deployment_head r i)
    ++ (x ← enumerate fqdns; following k p (env_var_lines x.1 x.2))
    ++ following k p ["          envFrom:"]
    ++ (j ← range n; following k p (env_from_lines r j))
    ++ following k p ["          volumeMounts:"]
    ++ (idx ← range (len cm_names); following k p (volume_mount_lines idx))
    ++ following k p deployment_sidecar
    ++ (x ← enumerate cm_names; following k p (volume_lines x.1 x.2)).
Proof.
  unfold deployment_lines.
  repeat (rewrite following_app;
    [|first [ assumption | apply closed_block_bind; intros; auto ] ]).
  rewrite !following_block by done.
  by rewrite !following_bind by (intros; auto).
Qed.
End deployment_select.

(** ** Decimal formatting *)

Lemma decimal_value_zeros k s : decimal_value (zeros k +:+ s) = decimal_value s.
Proof.
  induction k as [|k IH]; [done|].
  rewrite <- IH. unfold decimal_value. cbn [zeros].
  rewrite app_cons_s. cbn [NilEmpty.uint_of_string].
  by destruct (NilEmpty.uint_of_string (zeros k +:+ s)).
Qed.

Lemma decimal_value_digits m : decimal_value (digits m) = Some m.
Proof.
  unfold decimal_value, digits.
  by rewrite NilEmpty.usu; cbn; rewrite DecimalN.Unsigned.of_to.
Qed.

Lemma fmt_d_nonneg w z :
  0 ≤ z →
  fmt_d w z = zeros (w - String.length (digits (Z.to_N z))) +:+ digits (Z.to_N z).
Proof.
  intros Hz. unfold fmt_d.
  destruct (Z.ltb_spec z 0); [lia|].
  by replace (Z.abs_N z) with (Z.to_N z) by lia.
Qed.

Lemma decimal_value_fmt_d w z :
  0 ≤ z → decimal_value (fmt_d w z) = Some (Z.to_N z).
Proof.
  intros. by rewrite fmt_d_nonneg, decimal_value_zeros, decimal_value_digits.
Qed.

(** On non-negative integers the padded format is injective, whatever the
    number of digits. *)
Lemma fmt_d_inj w z z' : 0 ≤ z → 0 ≤ z' → fmt_d w z = fmt_d w z' → z = z'.
Proof.
  intros Hz Hz' Heq.
  apply (f_equal decimal_value) in Heq.
  rewrite !decimal_value_fmt_d in Heq by done.
  injection Heq. lia.
Qed.

Lemma all_digits_app a b : all_digits (a +:+ b) = all_digits a && all_digits b.
Proof.
  induction a as [|c a IH]; [done|].
  rewrite app_cons_s. cbn [all_digits]. by rewrite IH, andb_assoc.
Qed.

Lemma all_digits_zeros k : all_digits (zeros k) = true.
Proof. induction k as [|k IH]; [done|]. cbn [zeros all_digits]. by rewrite IH. Qed.

Lemma all_digits_digits m : all_digits (digits m) = true.
Proof.
  unfold digits. induction (N.to_uint m) as [|d IH|d IH|d IH|d IH|d IH
    |d IH|d IH|d IH|d IH|d IH]; cbn [NilEmpty.string_of_uint all_digits];
    [done|by rewrite IH..].
Qed.

Lemma all_digits_fmt_d w z : 0 ≤ z → all_digits (fmt_d w z) = true.
Proof.
  intros. by rewrite fmt_d_nonneg, all_digits_app, all_digits_zeros,
    all_digits_digits.
Qed.

(** Two strings of digits followed by the same non-digit separator: the
    separator is found at the same place in both. *)
Lemma split_at_separator c a a' t t' :
  is_digit c = false →
  all_digits a = true → all_digits a' = true →
  a +:+ String c t = a' +:+ String c t' → a = a' ∧ t = t'.
Proof.
  intros Hc. revert a'. induction a as [|x a IH]; intros [|x' a'] Ha Ha' Heq.
  - by injection Heq.
  - rewrite app_cons_s in Heq. injection Heq as <- _.
    cbn [all_digits] in Ha'. by rewrite Hc in Ha'.
  - rewrite app_cons_s in Heq. injection Heq as -> _.
    cbn [all_digits] in Ha. by rewrite Hc in Ha.
  - rewrite !app_cons_s in Heq. injection Heq as -> Heq.
    cbn [all_digits] in Ha, Ha'.
    apply andb_true_iff in Ha as [_ Ha]. apply andb_true_iff in Ha' as [_ Ha'].
    destruct (IH a' Ha Ha' Heq) as [-> ->]. done.
Qed.

(** ** Name derivation *)

Lemma configmap_name_inj r i r' i' :
  0 ≤ r → 0 ≤ i → 0 ≤ r' → 0 ≤ i' →
  configmap_name r i = configmap_name r' i' → r = r' ∧ i = i'.
Proof.
  intros Hr Hi Hr' Hi'. unfold configmap_name. intros Heq.
  injection Heq as Heq.
  change ("-config-" +:+ ?x) with (String "-" ("config-" +:+ x)) in Heq.
  apply split_at_separator in Heq as [Hrr Hii];
    [|done|by apply all_digits_fmt_d..].
  apply fmt_d_inj in Hrr; [|done..].
  apply (inj (String.app _)) in Hii.
  apply fmt_d_inj in Hii; done.
Qed.

Lemma service_fqdn_inj r i r' i' :
  0 ≤ r → 0 ≤ i → 0 ≤ r' → 0 ≤ i' →
  service_fqdn r i = service_fqdn r' i' → r = r' ∧ i = i'.
Proof.
  intros Hr Hi Hr' Hi'. unfold service_fqdn. intros Heq.
  injection Heq as Heq.
  change ("-app-" +:+ ?x) with (String "-" ("app-" +:+ x)) in Heq.
  apply split_at_separator in Heq as [Hrr Hii];
    [|done|by apply all_digits_fmt_d..].
  apply fmt_d_inj in Hrr; [|done..].
  apply (inj (String.app _)) in Hii.
  change (".default.svc.cluster.local")
    with (String "." "default.svc.cluster.local") in Hii.
  apply split_at_separator in Hii as [Hii _];
    [|done|by apply all_digits_fmt_d..].
  apply fmt_d_inj in Hii; done.
Qed.

Lemma length_bind_uniform {A B} (g : A → list B) (m : nat) (xs : list A) :
  (∀ x, length (g x) = m) → length (xs ≫= g) = (length xs * m)%nat.
Proof.
  intros Hg. induction xs as [|x xs IH]; [done|].
  cbn. rewrite length_app, Hg, IH. done.
Qed.

Lemma lookup_bind_uniform {A B} (g : A → list B) (m : nat) (xs : list A) a b :
  (∀ x, length (g x) = m) → (b < m)%nat →
  (xs ≫= g) !! (a * m + b)%nat = xs !! a ≫= λ x, g x !! b.
Proof.
  intros Hg Hb. revert a. induction xs as [|x xs IH]; intros a; [done|].
  cbn [mbind list_bind]. destruct a as [|a].
  - rewrite lookup_app_l by (rewrite Hg; lia). done.
  - rewrite lookup_app_r by (rewrite Hg; lia).
    rewrite Hg. replace (S a * m + b - m)%nat with (a * m + b)%nat by lia.
    apply IH.
Qed.

(** The nested comprehension over [range n] twice, for any element [f r i]. *)
Section comprehension.
Context {A : Type} (f : Z → Z → A).

Lemma comprehension_inner n r :
  (i ← range n; [f r i]) = f r <$> range n.
Proof. by apply bind_singleton. Qed.

Lemma comprehension_inner_length n r :
  length (i ← range n; [f r i]) = Z.to_nat n.
Proof.
  rewrite comprehension_inner, length_fmap. apply length_seqZ.
Qed.

Lemma comprehension_length n :
  0 ≤ n → len (r ← range n; i ← range n; [f r i]) = n * n.
Proof.
  intros Hn. unfold len.
  rewrite (length_bind_uniform _ (Z.to_nat n))
    by (intros; apply comprehension_inner_length).
  unfold range. rewrite length_seqZ. lia.
Qed.

Lemma comprehension_lookup n r i :
  0 ≤ r < n → 0 ≤ i < n →
  (r ← range n; i ← range n; [f r i]) !! Z.to_nat (r * n + i)
  = Some (f r i).
Proof.
  intros Hr Hi.
  replace (Z.to_nat (r * n + i))
    with (Z.to_nat r * Z.to_nat n + Z.to_nat i)%nat by nia.
  rewrite (lookup_bind_uniform _ (Z.to_nat n))
    by (first [intros; apply comprehension_inner_length | lia]).
  assert (∀ j, 0 ≤ j < n → range n !! Z.to_nat j = Some j) as Hrange.
  { intros j Hj. unfold range. rewrite lookup_seqZ_lt by lia. f_equal. lia. }
  rewrite Hrange by done. cbn [mbind option_bind].
  by rewrite comprehension_inner, list_lookup_fmap, Hrange.
Qed.

Lemma comprehension_nil n : n ≤ 0 → (r ← range n; i ← range n; [f r i]) = [].
Proof. intros. unfold range. by rewrite !seqZ_nil. Qed.

Lemma comprehension_NoDup n :
  (∀ r i r' i', 0 ≤ r → 0 ≤ i → 0 ≤ r' → 0 ≤ i' →
     f r i = f r' i' → r = r' ∧ i = i') →
  NoDup (r ← range n; i ← range n; [f r i]).
Proof.
  intros Hinj. apply NoDup_bind; [| |apply NoDup_seqZ].
  - intros r r' y [Hr _]%elem_of_seqZ [Hr' _]%elem_of_seqZ.
    rewrite !comprehension_inner.
    intros (i & -> & [Hi _]%elem_of_seqZ)%list_elem_of_fmap.
    intros (i' & Heq & [Hi' _]%elem_of_seqZ)%list_elem_of_fmap.
    by apply Hinj in Heq as [-> _].
  - intros r [Hr _]%elem_of_seqZ. rewrite comprehension_inner.
    apply NoDup_fmap_2_strong; [|apply NoDup_seqZ].
    intros i i' [Hi _]%elem_of_seqZ [Hi' _]%elem_of_seqZ Heq.
    by apply Hinj in Heq as [_ ->].
Qed.
End comprehension.

(** ** The documents of a release *)

Lemma append_each_fmap doc n docs :
  append_each doc n docs = docs ++ (doc <$> range n).
Proof.
  unfold append_each. generalize (range n) as xs. intros xs.
  revert docs. induction xs as [|x xs IH]; intros docs.
  - by rewrite app_nil_r.
  - cbn [foldl fmap list_fmap]. rewrite IH, <- app_assoc. done.
Qed.

Lemma release_docs_eq r n cm_names fqdns :
  release_docs r n cm_names fqdns
  = (configmap_doc r <$> range n)
    ++ (secret_doc r <$> range n)
    ++ (deployment_doc r n cm_names fqdns <$> range n)
    ++ (service_doc r <$> range n)
    ++ [ingress_doc r n].
Proof.
  unfold release_docs. rewrite !append_each_fmap, app_nil_l.
  by rewrite <- !app_assoc.
Qed.

Lemma release_docs_unlines r n cm_names fqdns :
  release_docs r n cm_names fqdns
  = unlines <$> release_lines r n cm_names fqdns.
Proof.
  rewrite release_docs_eq. unfold release_lines.
  rewrite !fmap_app, <- !list_fmap_compose.
  rewrite (list_fmap_ext (configmap_doc r) (unlines ∘ configmap_lines r))
    by (intros; apply configmap_doc_unlines).
  rewrite (list_fmap_ext (secret_doc r) (unlines ∘ secret_lines r))
    by (intros; apply secret_doc_unlines).
  rewrite (list_fmap_ext (deployment_doc r n cm_names fqdns)
             (unlines ∘ deployment_lines r n cm_names fqdns))
    by (intros; apply deployment_doc_unlines).
  rewrite (list_fmap_ext (service_doc r) (unlines ∘ service_lines r))
    by (intros; apply service_doc_unlines).
  by rewrite ingress_doc_unlines.
Qed.

Lemma release_docs_length r n cm_names fqdns :
  0 ≤ n → len (release_docs r n cm_names fqdns) = 4 * n + 1.
Proof.
  intros Hn. rewrite release_docs_eq. unfold len.
  rewrite !length_app, !length_fmap. unfold range. rewrite length_seqZ.
  cbn [length]. lia.
Qed.

(** Joining documents with the separator line. *)
Lemma join_separator_unlines (lss : list (list string)) :
  join ("---" +:+ LF) (unlines <$> lss) = unlines (separated lss).
Proof.
  destruct lss as [|ls rest]; [done|]. unfold separated.
  revert ls. induction rest as [|ls' rest IH]; intros ls.
  - cbn. by rewrite app_nil_r.
  - rewrite !fmap_cons, join_cons_cons, <- fmap_cons, IH.
    cbn [mbind list_bind]. rewrite (unlines_app ls), <- ?app_comm_cons.
    by rewrite unlines_cons, ?app_assoc_s.
Qed.

Lemma generate_release_unlines r n cm_names fqdns :
  generate_release r n cm_names fqdns
  = unlines (separated (release_lines r n cm_names fqdns)).
Proof.
  unfold generate_release.
  by rewrite release_docs_unlines, join_separator_unlines.
Qed.

Lemma Forall_separated (P : string → Prop) lss :
  P "---" → Forall (Forall P) lss → Forall P (separated lss).
Proof.
  intros Hsep [|ls rest Hls Hrest]; [done|].
  unfold separated. apply Forall_app_2; [done|].
  apply Forall_bind. eapply Forall_impl; [done|].
  intros ls' Hls'. by constructor.
Qed.

Lemma release_lines_newline_free r n cm_names fqdns :
  Forall (λ l, newline_free l = true) cm_names →
  Forall (λ l, newline_free l = true) fqdns →
  Forall (Forall (λ l, newline_free l = true)) (release_lines r n cm_names fqdns).
Proof.
  intros Hcm Hfq. unfold release_lines.
  repeat apply Forall_app_2.
  - apply Forall_fmap, Forall_forall. intros i _.
    unfold configmap_lines. cbn. newline_free_lines.
  - apply Forall_fmap, Forall_forall. intros i _.
    unfold secret_lines. cbn. newline_free_lines.
  - apply Forall_fmap, Forall_forall. intros i _.
    by apply deployment_lines_newline_free.
  - apply Forall_fmap, Forall_forall. intros i _.
    unfold service_lines. cbn. newline_free_lines.
  - constructor; [|done]. unfold ingress_lines, ingress_head.
    apply Forall_app_2; [newline_free_lines|].
    apply Forall_block; [done|]. apply Forall_bind, Forall_forall.
    intros j _. unfold path_lines. cbn. newline_free_lines.
Qed.

Lemma lines_generate_release r n cm_names fqdns :
  Forall (λ l, newline_free l = true) cm_names →
  Forall (λ l, newline_free l = true) fqdns →
  lines (generate_release r n cm_names fqdns)
  = separated (release_lines r n cm_names fqdns) ++ [""].
Proof.
  intros Hcm Hfq. rewrite generate_release_unlines.
  apply lines_unlines, Forall_separated; [done|].
  by apply release_lines_newline_free.
Qed.

Lemma following_0_app p xs ys :
  following 0 p (xs ++ ys) = following 0 p xs ++ following 0 p ys.
Proof. apply following_app, closed_0. Qed.

(** Lines other than the separator, selected across separated documents. *)
Lemma following_0_separated p lss :
  p "---" = false →
  following 0 p (separated lss) = lss ≫= following 0 p.
Proof.
  intros Hp. destruct lss as [|ls rest]; [done|].
  unfold separated. rewrite following_0_app. cbn [mbind list_bind]. f_equal.
  rewrite following_bind by (intros; apply closed_0).
  apply list_bind_ext; [|done]. intros ls'. cbn [following]. by rewrite Hp.
Qed.

(** The separator lines themselves. *)
Lemma count_separators lss :
  Forall (λ ls, following 0 (String.eqb "---") ls = []) lss →
  count_lines (String.eqb "---") (separated lss) = pred (length lss).
Proof.
  unfold count_lines. intros [|ls rest Hls Hrest]; [done|].
  unfold separated. rewrite following_0_app, Hls, app_nil_l. cbn [length pred].
  induction Hrest as [|ls' rest Hls' _ IH]; [done|].
  cbn [mbind list_bind]. rewrite following_0_app, length_app, IH.
  change (following 0 (String.eqb "---") ("---" :: ls'))
    with ("---" :: following 0 (String.eqb "---") ls').
  by rewrite Hls'.
Qed.

Lemma bind_fmap {A B C} (f : A → B) (g : B → list C) (xs : list A) :
  (f <$> xs) ≫= g = xs ≫= λ x, g (f x).
Proof. induction xs as [|x xs IH]; [done|]. cbn. by rewrite IH. Qed.

Lemma bind_const {A B} (f : A → list B) (y : B) (xs : list A) :
  (∀ x, f x = [y]) → xs ≫= f = replicate (length xs) y.
Proof.
  intros Hf. rewrite (bind_singleton f (λ _, y)) by done. apply const_fmap. done.
Qed.

Lemma fmap_const_range {A} (f : Z → A) (y : A) n :
  (∀ x, f x = y) → f <$> range n = replicate (Z.to_nat n) y.
Proof.
  intros Hf. unfold range. rewrite <- (length_seqZ 0 n).
  rewrite <- (const_fmap (λ _, y)) by done.
  apply list_fmap_ext. intros _ x _. apply Hf.
Qed.

(** ** Kinds of the documents *)

Lemma kind_of_configmap r i : kind_of (configmap_doc r i) = Some "kind: ConfigMap".
Proof. unfold kind_of. by rewrite lines_configmap_doc. Qed.

Lemma kind_of_secret r i : kind_of (secret_doc r i) = Some "kind: Secret".
Proof. unfold kind_of. by rewrite lines_secret_doc. Qed.

Lemma kind_of_service r i : kind_of (service_doc r i) = Some "kind: Service".
Proof. unfold kind_of. by rewrite lines_service_doc. Qed.

Lemma kind_of_ingress r n : kind_of (ingress_doc r n) = Some "kind: Ingress".
Proof. unfold kind_of. by rewrite lines_ingress_doc. Qed.

(** The kind of a Deployment does not depend on the names it embeds. *)
Lemma kind_of_deployment r n cm_names fqdns i :
  kind_of (deployment_doc r n cm_names fqdns i) = Some "kind: Deployment".
Proof.
  unfold kind_of, deployment_doc, deployment_text.
  by do 2 rewrite lines_app_LF.
Qed.

Lemma release_docs_kinds r n cm_names fqdns :
  kind_of <$> release_docs r n cm_names fqdns
  = replicate (Z.to_nat n) (Some "kind: ConfigMap")
    ++ replicate (Z.to_nat n) (Some "kind: Secret")
    ++ replicate (Z.to_nat n) (Some "kind: Deployment")
    ++ replicate (Z.to_nat n) (Some "kind: Service")
    ++ [Some "kind: Ingress"].
Proof.
  rewrite release_docs_eq, !fmap_app, <- !list_fmap_compose.
  rewrite (fmap_const_range (kind_of ∘ configmap_doc r) (Some "kind: ConfigMap"))
    by apply kind_of_configmap.
  rewrite (fmap_const_range (kind_of ∘ secret_doc r) (Some "kind: Secret"))
    by apply kind_of_secret.
  rewrite (fmap_const_range (kind_of ∘ deployment_doc r n cm_names fqdns)
             (Some "kind: Deployment"))
    by apply kind_of_deployment.
  rewrite (fmap_const_range (kind_of ∘ service_doc r) (Some "kind: Service"))
    by apply kind_of_service.
  cbn [fmap list_fmap]. by rewrite kind_of_ingress.
Qed.

(** A document of a release whose kind is Deployment is one of the
    documents appended by the Deployment loop. *)
Lemma deployment_of_release r n cm_names fqdns d :
  d ∈ release_docs r n cm_names fqdns →
  kind_of d = Some "kind: Deployment" →
  ∃ i, 0 ≤ i < n ∧ d = deployment_doc r n cm_names fqdns i.
Proof.
  rewrite release_docs_eq, !elem_of_app, !list_elem_of_fmap.
  intros [(i & -> & Hi)|[(i & -> & Hi)|[(i & -> & Hi)|[(i & -> & Hi)|Hi]]]].
  - by rewrite kind_of_configmap.
  - by rewrite kind_of_secret.
  - intros _. exists i. split; [|done].
    apply elem_of_seqZ in Hi. lia.
  - by rewrite kind_of_service.
  - apply list_elem_of_singleton in Hi as ->. by rewrite kind_of_ingress.
Qed.

(** ** The Ingress document *)

Lemma following_ingress_doc k p r n :
  p "" = false →
  closed k p (ingress_head r) = true →
  (∀ i, closed k p (path_lines r i) = true) →
  following k p (lines (ingress_doc r n))
  = following k p (ingress_head r)
    ++ (i ← range n; following k p (path_lines r i)).
Proof.
  intros Hblank Hhead Hpath.
  assert (closed k p (block (i ← range n; path_lines r i)) = true) as Hblock.
  { apply closed_block; [done|]. by apply closed_bind. }
  rewrite (following_lines k p _ _ (lines_ingress_doc r n))
    by (try apply closed_app; done).
  unfold ingress_lines. rewrite following_app, following_block by done.
  by rewrite following_bind.
Qed.

(** ** Separators and kinds in the text of a release *)

Lemma following_0_deployment_lines p r n cm_names fqdns i :
  p "" = false →
  following 0 p (deployment_lines r n cm_names fqdns i)
  = following 0 p (deployment_head r i)
    ++ (x ← enumerate fqdns; following 0 p (env_var_lines x.1 x.2))
    ++ following 0 p ["          envFrom:"]
    ++ (j ← range n; following 0 p (env_from_lines r j))
    ++ following 0 p ["          volumeMounts:"]
    ++ (idx ← range (len cm_names); following 0 p (volume_mount_lines idx))
    ++ following 0 p deployment_sidecar
    ++ (x ← enumerate cm_names; following 0 p (volume_lines x.1 x.2)).
Proof.
  intros Hblank. apply following_deployment_lines;
    first [ done | intros; apply closed_0 ].
Qed.

Lemma following_0_ingress_lines p r n :
  p "" = false →
  following 0 p (ingress_lines r n)
  = following 0 p (ingress_head r)
    ++ (i ← range n; following 0 p (path_lines r i)).
Proof.
  intros Hblank. unfold ingress_lines.
  rewrite following_0_app, following_block by done.
  by rewrite following_bind by (intros; apply closed_0).
Qed.

Lemma no_separator_in_release r n cm_names fqdns :
  Forall (λ ls, following 0 (String.eqb "---") ls = [])
    (release_lines r n cm_names fqdns).
Proof.
  unfold release_lines. repeat apply Forall_app_2.
  - apply Forall_fmap, Forall_forall. by intros i _.
  - apply Forall_fmap, Forall_forall. by intros i _.
  - apply Forall_fmap, Forall_forall. intros i _. cbn [compose].
    rewrite following_0_deployment_lines by done.
    by rewrite !bind_nil.
  - apply Forall_fmap, Forall_forall. by intros i _.
  - constructor; [|done].
    rewrite following_0_ingress_lines by done. by rewrite bind_nil.
Qed.

Lemma kinds_in_release r n cm_names fqdns :
  release_lines r n cm_names fqdns ≫= following 0 (starts_with "kind: ")
  = replicate (Z.to_nat n) "kind: ConfigMap"
    ++ replicate (Z.to_nat n) "kind: Secret"
    ++ replicate (Z.to_nat n) "kind: Deployment"
    ++ replicate (Z.to_nat n) "kind: Service"
    ++ ["kind: Ingress"].
Proof.
  unfold release_lines. rewrite !bind_app, !bind_fmap.
  assert (length (range n) = Z.to_nat n) as Hlen by apply length_seqZ.
  rewrite (bind_const _ "kind: ConfigMap") by done.
  rewrite (bind_const _ "kind: Secret") by done.
  rewrite (bind_const _ "kind: Deployment").
  2:{ intros i. rewrite following_0_deployment_lines by done.
      by rewrite !bind_nil. }
  rewrite (bind_const _ "kind: Service") by done.
  rewrite Hlen. repeat f_equal.
  cbn [mbind list_bind]. rewrite following_0_ingress_lines by done.
  by rewrite bind_nil.
Qed.

(** ** Selection in a Deployment document *)

Lemma following_deployment_doc k p r n cm_names fqdns i :
  Forall (λ l, newline_free l = true) cm_names →
  Forall (λ l, newline_free l = true) fqdns →
  p "" = false →
  closed k p (deployment_head r i) = true →
  (∀ idx fqdn, closed k p (env_var_lines idx fqdn) = true) →
  closed k p ["          envFrom:"] = true →
  (∀ j, closed k p (env_from_lines r j) = true) →
  closed k p ["          volumeMounts:"] = true →
  (∀ idx, closed k p (volume_mount_lines idx) = true) →
  closed k p deployment_sidecar = true →
  (∀ idx name, closed k p (volume_lines idx name) = true) →
  following k p (lines (deployment_doc r n cm_names fqdns i))
  = following k p (deployment_head r i)
    ++ (x ← enumerate fqdns; following k p (env_var_lines x.1 x.2))
    ++ following k p ["          envFrom:"]
    ++ (j ← range n; following k p (env_from_lines r j))
    ++ following k p ["          volumeMounts:"]
    ++ (idx ← range (len cm_names); following k p (volume_mount_lines idx))
    ++ following k p deployment_sidecar
    ++ (x ← enumerate cm_names; following k p (volume_lines x.1 x.2)).
Proof.
  intros Hcm Hfq Hblank H1 H2 H3 H4 H5 H6 H7 H8.
  rewrite (following_lines k p _ _ (lines_deployment_doc r n _ _ i Hcm Hfq))
    by (try apply closed_deployment_lines; done).
  by apply following_deployment_lines.
Qed.

Lemma enumerate_fst {A} (l : list A) : (enumerate l).*1 = range (len l).
Proof.
  unfold enumerate. apply fst_zip.
  unfold range, len. rewrite length_seqZ. lia.
Qed.

Lemma enumerate_snd {A} (l : list A) : (enumerate l).*2 = l.
Proof.
  unfold enumerate. apply snd_zip.
  unfold range, len. rewrite length_seqZ. lia.
Qed.

Lemma enumerate_length {A} (l : list A) : length (enumerate l) = length l.
Proof. by rewrite <- (length_fmap snd), enumerate_snd. Qed.

Lemma length_bind_singleton {A B} (f : A → list B) (g : A → B) (xs : list A) :
  (∀ x, x ∈ xs → f x = [g x]) → length (xs ≫= f) = length xs.
Proof. intros H. by rewrite (bind_singleton f g), length_fmap. Qed.

Lemma all_configmap_names_newline_free n :
  Forall (λ l, newline_free l = true) (all_configmap_names n).
Proof.
  unfold all_configmap_names.
  apply Forall_bind, Forall_forall. intros r _.
  apply Forall_bind, Forall_forall. intros i _.
  unfold configmap_name. newline_free_lines.
Qed.

Lemma all_service_fqdns_newline_free n :
  Forall (λ l, newline_free l = true) (all_service_fqdns n).
Proof.
  unfold all_service_fqdns.
  apply Forall_bind, Forall_forall. intros r _.
  apply Forall_bind, Forall_forall. intros i _.
  unfold service_fqdn. newline_free_lines.
Qed.

(** Blocks whose entries contribute nothing to a selection. *)
Ltac drop_empty_blocks :=
  repeat match goal with
  | |- context [?xs ≫= ?f] => rewrite (bind_nil f xs) by done
  end.

(** The fixed lines of a Deployment contribute nothing to a selection that
    targets the entries of a block. *)
Ltac drop_fixed_lines :=
  repeat match goal with
  | |- context [following ?k ?p (deployment_head ?r ?i)] =>
      change (following k p (deployment_head r i)) with (@nil string)
  | |- context [following ?k ?p deployment_sidecar] =>
      change (following k p deployment_sidecar) with (@nil string)
  | |- context [following ?k ?p [?l]] =>
      change (following k p [l]) with (@nil string)
  end;
  rewrite ?app_nil_l, ?app_nil_r.

(** ** Selecting one entry by its name *)

Lemma closed_entry k p l0 tl :
  (k ≤ length tl)%nat → closed k p tl = true → closed k p (l0 :: tl) = true.
Proof.
  intros Hk Htl. cbn [closed]. rewrite Htl, andb_true_r.
  destruct (p l0); [|done]. by apply Nat.leb_le.
Qed.

Lemma following_hit k (v : string) tl :
  following k (String.eqb v) (v :: tl)
  = option_list ((v :: tl) !! k) ++ following k (String.eqb v) tl.
Proof. cbn [following]. by rewrite String.eqb_refl. Qed.

Lemma following_miss k p l tl :
  p l = false → following k p (l :: tl) = following k p tl.
Proof. intros Hp. cbn [following]. by rewrite Hp. Qed.

Lemma eqb_fmt_d_miss (lit : string) w idx j :
  0 ≤ idx → 0 ≤ j → j ≠ idx →
  String.eqb (lit +:+ fmt_d w idx) (lit +:+ fmt_d w j) = false.
Proof.
  intros Hidx Hj Hne. apply String.eqb_neq.
  intros Heq%(inj (String.app _)). by apply fmt_d_inj in Heq.
Qed.

(** A block in which exactly one entry contributes. *)
Lemma bind_select {A B} (f : A → list B) (xs : list A) (x : A) :
  NoDup xs → x ∈ xs → (∀ x', x' ∈ xs → x' ≠ x → f x' = []) →
  xs ≫= f = f x.
Proof.
  intros Hnd Hx Hf.
  apply list_elem_of_split in Hx as (l1 & l2 & ->).
  apply NoDup_app in Hnd as (_ & Hl1 & [Hl2 _]%NoDup_cons).
  rewrite bind_app. cbn [mbind list_bind].
  rewrite !bind_nil, app_nil_r; [done|..].
  - intros x' Hx'. apply Hf; [set_solver|]. by intros ->.
  - intros x' Hx'. apply Hf; [set_solver|]. intros ->.
    by apply (Hl1 x); [|left].
Qed.

Lemma enumerate_NoDup {A} (l : list A) : NoDup (enumerate l).
Proof.
  apply (NoDup_fmap_1 fst). rewrite enumerate_fst. apply NoDup_seqZ.
Qed.

Lemma enumerate_elem_2 {A} (l : list A) idx x :
  0 ≤ idx → l !! Z.to_nat idx = Some x → (idx, x) ∈ enumerate l.
Proof.
  intros Hidx Hx. apply list_elem_of_lookup. exists (Z.to_nat idx).
  unfold enumerate. apply lookup_zip_with_Some. exists idx, x.
  split_and!; [done| |done].
  unfold range, len. apply lookup_seqZ. split; [lia|].
  apply lookup_lt_Some in Hx. lia.
Qed.

Lemma bind_enumerate_select {A B} (f : Z * A → list B) (l : list A) idx x :
  0 ≤ idx → l !! Z.to_nat idx = Some x →
  (∀ j y, 0 ≤ j → j ≠ idx → f (j, y) = []) →
  enumerate l ≫= f = f (idx, x).
Proof.
  intros Hidx Hx Hf.
  apply bind_select; [apply enumerate_NoDup|by apply enumerate_elem_2|].
  intros [j y] [Hj Hy]%enumerate_elem Hne. apply Hf; [lia|].
  intros ->. rewrite Hx in Hy. by injection Hy as ->.
Qed.

Lemma bind_range_select {B} (f : Z → list B) n idx :
  0 ≤ idx < n →
  (∀ j, 0 ≤ j → j ≠ idx → f j = []) →
  range n ≫= f = f idx.
Proof.
  intros Hidx Hf.
  apply bind_select; [apply NoDup_seqZ|apply elem_of_seqZ; lia|].
  intros j Hj%elem_of_seqZ Hne. apply Hf; [lia|done].
Qed.

(** ** Lines of a Deployment, whatever the names *)

Lemma lines_unlines_app ls rest :
  Forall (λ l, newline_free l = true) ls →
  lines (unlines ls +:+ rest) = ls ++ lines rest.
Proof.
  induction 1 as [|l ls Hl _ IH]; [done|].
  rewrite unlines_cons, !app_assoc_s, lines_app_LF.
  by rewrite lines_newline_free, IH.
Qed.

Lemma lines_block_app blk ls rest :
  blk +:+ LF = unlines ls →
  Forall (λ l, newline_free l = true) ls →
  lines ((blk +:+ LF) +:+ rest) = ls ++ lines rest.
Proof. intros -> Hls. by apply lines_unlines_app. Qed.

Lemma lines_deployment_doc_gen r n cm_names fqdns i :
  lines (deployment_doc r n cm_names fqdns i)
  = deployment_head r i
    ++ lines (env_vars fqdns)
    ++ ["          envFrom:"]
    ++ block (j ← range n; env_from_lines r j)
    ++ ["          volumeMounts:"]
    ++ block (idx ← range (len cm_names); volume_mount_lines idx)
    ++ deployment_sidecar
    ++ lines (volumes cm_names) ++ [""].
Proof.
  unfold deployment_doc. rewrite deployment_text_unlines.
  rewrite lines_unlines_app by (unfold deployment_head; newline_free_lines).
  rewrite app_assoc_s, lines_app_LF.
  rewrite lines_unlines_app by newline_free_lines.
  rewrite (lines_block_app _ _ _ (env_from_block r n)).
  2:{ apply Forall_block; [done|]. apply Forall_bind, Forall_forall.
      intros j _. unfold env_from_lines. cbn. newline_free_lines. }
  rewrite lines_unlines_app by newline_free_lines.
  rewrite (lines_block_app _ _ _ (volume_mounts_block cm_names)).
  2:{ apply Forall_block; [done|]. apply Forall_bind, Forall_forall.
      intros j _. unfold volume_mount_lines. cbn. newline_free_lines. }
  rewrite lines_unlines_app by (unfold deployment_sidecar; newline_free_lines).
  rewrite <- (app_nil_r_s (volumes cm_names +:+ LF)), app_assoc_s.
  by rewrite lines_app_LF.
Qed.

Lemma lines_volumes cm_names :
  Forall (λ l, newline_free l = true) cm_names →
  lines (volumes cm_names)
  = block (x ← enumerate cm_names; volume_lines x.1 x.2).
Proof.
  intros Hcm.
  assert (lines (volumes cm_names +:+ LF +:+ "")
          = block (x ← enumerate cm_names; volume_lines x.1 x.2) ++ [""]) as H.
  { rewrite <- app_assoc_s, volumes_block.
    rewrite lines_unlines_app; [done|].
    apply Forall_block; [done|]. apply Forall_bind, Forall_forall.
    intros [idx name] [_ Hin%list_elem_of_lookup_2]%enumerate_elem.
    rewrite Forall_forall in Hcm. specialize (Hcm _ Hin).
    unfold volume_lines. cbn. newline_free_lines. }
  rewrite lines_app_LF in H. by apply app_inv_tail in H.
Qed.

Lemma has_block_here blk post : has_block blk (blk ++ post).
Proof. by exists [], post. Qed.

Lemma has_block_app_r blk xs ys : has_block blk ys → has_block blk (xs ++ ys).
Proof.
  intros (pre & post & ->). exists (xs ++ pre), post. by rewrite <- app_assoc.
Qed.

Lemma has_block_app_l blk xs ys : has_block blk xs → has_block blk (xs ++ ys).
Proof.
  intros (pre & post & ->). exists pre, (post ++ ys). by rewrite <- !app_assoc.
Qed.

Lemma has_block_bind {A} (f : A → list string) (xs : list A) x :
  x ∈ xs → has_block (f x) (xs ≫= f).
Proof.
  intros (l1 & l2 & ->)%list_elem_of_split.
  rewrite bind_app. apply has_block_app_r. cbn. apply has_block_here.
Qed.

Lemma block_nonempty (ls : list string) : ls ≠ [] → block ls = ls.
Proof. by destruct ls. Qed.

Lemma has_block_block blk ls :
  blk ≠ [] → has_block blk ls → has_block blk (block ls).
Proof.
  intros Hblk Hls. destruct ls; [|done].
  destruct Hls as (pre & post & Heq).
  symmetry in Heq. apply app_eq_nil in Heq as [_ Heq].
  by apply app_eq_nil in Heq as [? _].
Qed.

Lemma range_nonempty n : 1 ≤ n → range n = 0 :: seqZ 1 (n - 1).
Proof. intros. unfold range. by rewrite seqZ_cons by lia. Qed.

(** ** Runs on the store *)

Lemma bind_val {A B} (m : Py.M A) (k : A → Py.M B) σ a σ' :
  m σ = (Py.Val a, σ') → (m ≫= k) σ = k a σ'.
Proof. intros H. unfold mbind, Py.M_bind. by rewrite H. Qed.

Lemma list_append_run docs x h t l :
  h !! docs = Some l →
  Py.list_append docs x (Py.State h t)
  = (Py.Val (), Py.State (<[docs := l ++ [x]]> h) t).
Proof. intros H. unfold Py.list_append. cbn [Py.heap Py.trace]. by rewrite H. Qed.

Lemma read_list_run ℓ h t l :
  h !! ℓ = Some l → Py.read_list ℓ (Py.State h t) = (Py.Val l, Py.State h t).
Proof. intros H. unfold Py.read_list. cbn [Py.heap]. by rewrite H. Qed.

(** A loop whose every iteration appends one document to [docs]. *)
Lemma for_each_append (f : Z → string) (body : Z → Py.M unit) docs h t xs l :
  (∀ i l', body i (Py.State (<[docs := l']> h) t)
           = (Py.Val (), Py.State (<[docs := l' ++ [f i]]> h) t)) →
  Py.for_each xs body (Py.State (<[docs := l]> h) t)
  = (Py.Val (), Py.State (<[docs := l ++ (f <$> xs)]> h) t).
Proof.
  intros Hbody. revert l. induction xs as [|x xs IH]; intros l.
  - by rewrite app_nil_r.
  - cbn [Py.for_each]. erewrite bind_val by apply Hbody.
    rewrite IH, <- app_assoc. done.
Qed.

Lemma list_append_body docs x h t l :
  Py.list_append docs x (Py.State (<[docs := l]> h) t)
  = (Py.Val (), Py.State (<[docs := l ++ [x]]> h) t).
Proof.
  erewrite list_append_run by apply lookup_insert_eq.
  by rewrite insert_insert_eq.
Qed.

(** A call of [generate_release] on the store: the text is the one of the
    pure function on the current contents of the two lists, and the only
    change to the store is the new list object [docs]. *)
Lemma generate_release_run r n cm_names fqdns σ cm fq :
  Py.heap σ !! cm_names = Some cm →
  Py.heap σ !! fqdns = Some fq →
  Py.generate_release r n cm_names fqdns σ
  = (Py.Val (generate_release r n cm fq),
     Py.State (<[fresh (dom (Py.heap σ)) := release_docs r n cm fq]> (Py.heap σ))
              (Py.trace σ)).
Proof.
  destruct σ as [h t]. cbn [Py.heap Py.trace]. intros Hcm Hfq.
  set (docs := fresh (dom h)).
  assert (h !! docs = None) as Hdocs
    by (apply not_elem_of_dom, is_fresh).
  assert (docs ≠ cm_names) as Hne1 by (intros ->; congruence).
  assert (docs ≠ fqdns) as Hne2 by (intros ->; congruence).
  unfold Py.generate_release.
  erewrite bind_val by reflexivity. cbn [Py.heap Py.trace]. fold docs.
  erewrite bind_val
    by (apply (for_each_append (configmap_doc r)); intros; apply list_append_body).
  erewrite bind_val
    by (apply (for_each_append (secret_doc r)); intros; apply list_append_body).
  erewrite bind_val.
  2:{ apply (for_each_append (deployment_doc r n cm fq)). intros i l'.
      erewrite bind_val
        by (apply read_list_run; rewrite lookup_insert_ne by done; exact Hcm).
      erewrite bind_val
        by (apply read_list_run; rewrite lookup_insert_ne by done; exact Hcm).
      erewrite bind_val
        by (apply read_list_run; rewrite lookup_insert_ne by done; exact Hfq).
      apply list_append_body. }
  erewrite bind_val
    by (apply (for_each_append (service_doc r)); intros; apply list_append_body).
  erewrite bind_val by apply list_append_body.
  erewrite bind_val by (apply read_list_run, lookup_insert_eq).
  unfold generate_release, release_docs. rewrite !append_each_fmap. done.
Qed.

Lemma emit_run e h t :
  Py.emit e (Py.State h t) = (Py.Val (), Py.State h (t ++ [e])).
Proof. done. Qed.

(** An invalid scale factor: the message, then the exit. *)
Lemma main_rejects n output σ :
  n < 1 →
  Py.main n output σ
  = (Py.SysExit 1,
     Py.State (Py.heap σ) (Py.trace σ ++ [Py.Stderr "Error: n must be >= 1"])).
Proof.
  intros Hn. unfold Py.main.
  destruct (Z.ltb_spec n 1); [|lia]. done.
Qed.

(** The loop over the releases: every iteration creates the directory of
    the release and writes its manifests; the two lists are read, never
    changed. *)
Lemma release_loop n output cm_names fqdns cm fq rs h t :
  h !! cm_names = Some cm → h !! fqdns = Some fq →
  ∃ h',
    Py.for_each rs (λ release_idx,
      let release_dir :=
        Py.path_join output ("release-" +:+ fmt_d 3 release_idx) in
      Py.emit (Py.Makedirs release_dir);;
      content ← Py.generate_release release_idx n cm_names fqdns;
      let manifest_path := Py.path_join release_dir "manifests.yaml" in
      Py.emit (Py.WriteFile manifest_path content)) (Py.State h t)
    = (Py.Val (),
       Py.State h' (t ++
         (release_idx ← rs;
          let release_dir :=
            Py.path_join output ("release-" +:+ fmt_d 3 release_idx) in
          [Py.Makedirs release_dir;
           Py.WriteFile (Py.path_join release_dir "manifests.yaml")
             (generate_release release_idx n cm fq)])))
    ∧ h' !! cm_names = Some cm ∧ h' !! fqdns = Some fq.
Proof.
  revert h t. induction rs as [|r rs IH]; intros h t Hcm Hfq.
  - exists h. by rewrite app_nil_r.
  - cbn [Py.for_each].
    assert (fresh (dom h) ≠ cm_names) as Hne1.
    { intros Heq. pose proof (is_fresh (dom h)) as Hfresh.
      rewrite Heq in Hfresh. by apply Hfresh, elem_of_dom. }
    assert (fresh (dom h) ≠ fqdns) as Hne2.
    { intros Heq. pose proof (is_fresh (dom h)) as Hfresh.
      rewrite Heq in Hfresh. by apply Hfresh, elem_of_dom. }
    destruct (IH (<[fresh (dom h) := release_docs r n cm fq]> h)
                 ((t ++ [Py.Makedirs (Py.path_join output ("release-" +:+ fmt_d 3 r))])
                  ++ [Py.WriteFile
                        (Py.path_join (Py.path_join output ("release-" +:+ fmt_d 3 r))
                           "manifests.yaml")
                        (generate_release r n cm fq)]))
      as (h' & Hrun & Hcm' & Hfq'); [by rewrite lookup_insert_ne..|].
    exists h'. split; [|done].
    erewrite bind_val.
    2:{ erewrite bind_val by apply emit_run.
        erewrite bind_val by (by apply generate_release_run).
        apply emit_run. }
    cbn [Py.heap Py.trace]. etrans; [exact Hrun|].
    cbn [mbind list_bind]. by rewrite <- !app_assoc.
Qed.

Lemma fresh_insert_ne (h : gmap Py.loc (list string)) ℓ l :
  fresh (dom (<[ℓ := l]> h)) ≠ ℓ.
Proof.
  intros Heq. apply (is_fresh (dom (<[ℓ := l]> h))).
  rewrite Heq. apply elem_of_dom. by rewrite lookup_insert_eq.
Qed.

(** A run with a valid scale factor. *)
Lemma main_run n args_output h :
  1 ≤ n →
  let output :=
    Py.or_default args_output
      ("/tmp/h2c-torture-" +:+ fmt_d 0 n +:+ "/manifests") in
  Py.run h (Py.main n args_output)
  = (0,
     [Py.Makedirs output;
      Py.Stdout ("Generating torture test: n=" +:+ fmt_d 0 n);
      Py.Stdout ("  " +:+ fmt_d 0 (n * n) +:+ " deployments, "
                 +:+ fmt_d 0 (n * n) +:+ " configmaps, "
                 +:+ fmt_d 0 (n * n) +:+ " services");
      Py.Stdout ("  " +:+ fmt_d 0 (n * n * (n * n))
                 +:+ " configmap mount resolutions (n" +:+ Py.SUP4 +:+ ")");
      Py.Stdout ("  " +:+ fmt_d 0 (n * n * (n * n))
                 +:+ " env FQDN rewrites (n" +:+ Py.SUP4 +:+ ")");
      Py.Stdout ("  Output: " +:+ output)]
     ++ (release_idx ← range n;
         let release_dir :=
           Py.path_join output ("release-" +:+ fmt_d 3 release_idx) in
         [Py.Makedirs release_dir;
          Py.WriteFile (Py.path_join release_dir "manifests.yaml")
            (generate_release release_idx n
               (all_configmap_names n) (all_service_fqdns n))])
     ++ [Py.Stdout ("Done. " +:+ fmt_d 0 n
                    +:+ " release directories written to " +:+ output)]).
Proof.
  intros Hn output. unfold Py.run, Py.main.
  destruct (Z.ltb_spec n 1); [lia|]. fold output.
  erewrite bind_val by reflexivity.
  do 6 (erewrite bind_val by apply emit_run).
  erewrite bind_val by reflexivity. cbn [Py.heap Py.trace].
  erewrite bind_val by reflexivity. cbn [Py.heap Py.trace].
  set (cm_names := fresh (dom h)).
  set (fqdns := fresh (dom (<[cm_names := _]> h))).
  edestruct (release_loop n output cm_names fqdns
               (all_configmap_names n) (all_service_fqdns n) (range n))
    as (h' & Hrun & _); [| |erewrite bind_val by apply Hrun].
  - rewrite lookup_insert_ne; [apply lookup_insert_eq|].
    apply fresh_insert_ne.
  - apply lookup_insert_eq.
  - rewrite emit_run. cbn [Py.trace]. by rewrite <- !app_assoc.
Qed.

(** The contents written by a run with a valid scale factor. *)
Lemma written_main n args_output h :
  1 ≤ n →
  written (Py.run h (Py.main n args_output)).2
  = (λ r, generate_release r n (all_configmap_names n) (all_service_fqdns n))
    <$> range n.
Proof.
  intros Hn. rewrite main_run by done. cbn [snd]. unfold written.
  rewrite !bind_app. cbn [mbind list_bind app]. rewrite app_nil_r.
  generalize (range n) as rs. intros rs.
  induction rs as [|r rs IH]; [done|].
  cbn [mbind list_bind fmap list_fmap app]. by rewrite IH.
Qed.

(** ** Positions of the documents of a release *)

Lemma lookup_fmap_range {A} (f : Z → A) n i :
  0 ≤ i < n → (f <$> range n) !! Z.to_nat i = Some (f i).
Proof.
  intros Hi. rewrite list_lookup_fmap. unfold range.
  rewrite lookup_seqZ_lt by lia. cbn. do 2 f_equal. lia.
Qed.

Lemma lookup_app_fmap_range {A} (f : Z → A) n k (rest : list A) :
  0 ≤ n ≤ k →
  ((f <$> range n) ++ rest) !! Z.to_nat k = rest !! Z.to_nat (k - n).
Proof.
  intros Hk. rewrite lookup_app_r; rewrite length_fmap; unfold range;
    rewrite length_seqZ; [|lia].
  f_equal. lia.
Qed.

Lemma release_docs_configmap r n cm_names fqdns i :
  0 ≤ i < n →
  release_docs r n cm_names fqdns !! Z.to_nat i = Some (configmap_doc r i).
Proof.
  intros Hi. rewrite release_docs_eq, lookup_app_l.
  - by apply lookup_fmap_range.
  - rewrite length_fmap. unfold range. rewrite length_seqZ. lia.
Qed.

Lemma release_docs_secret r n cm_names fqdns i :
  0 ≤ i < n →
  release_docs r n cm_names fqdns !! Z.to_nat (n + i) = Some (secret_doc r i).
Proof.
  intros Hi. rewrite release_docs_eq.
  rewrite lookup_app_fmap_range by lia.
  replace (n + i - n) with i by lia. rewrite lookup_app_l.
  - by apply lookup_fmap_range.
  - rewrite length_fmap. unfold range. rewrite length_seqZ. lia.
Qed.

Lemma release_docs_deployment r n cm_names fqdns i :
  0 ≤ i < n →
  release_docs r n cm_names fqdns !! Z.to_nat (2 * n + i)
  = Some (deployment_doc r n cm_names fqdns i).
Proof.
  intros Hi. rewrite release_docs_eq.
  rewrite lookup_app_fmap_range by lia.
  rewrite lookup_app_fmap_range by lia.
  replace (2 * n + i - n - n) with i by lia. rewrite lookup_app_l.
  - by apply lookup_fmap_range.
  - rewrite length_fmap. unfold range. rewrite length_seqZ. lia.
Qed.

Lemma release_docs_service r n cm_names fqdns i :
  0 ≤ i < n →
  release_docs r n cm_names fqdns !! Z.to_nat (3 * n + i) = Some (service_doc r i).
Proof.
  intros Hi. rewrite release_docs_eq.
  do 3 rewrite lookup_app_fmap_range by lia.
  replace (3 * n + i - n - n - n) with i by lia. rewrite lookup_app_l.
  - by apply lookup_fmap_range.
  - rewrite length_fmap. unfold range. rewrite length_seqZ. lia.
Qed.

Lemma release_docs_ingress r n cm_names fqdns :
  0 ≤ n →
  release_docs r n cm_names fqdns !! Z.to_nat (4 * n) = Some (ingress_doc r n).
Proof.
  intros Hn. rewrite release_docs_eq.
  do 4 rewrite lookup_app_fmap_range by lia.
  by replace (4 * n - n - n - n - n) with 0 by lia.
Qed.

(** ** Entries found in a Deployment and in an Ingress *)

Lemma lines_env_vars fqdns :
  Forall (λ l, newline_free l = true) fqdns →
  lines (env_vars fqdns) = block (x ← enumerate fqdns; env_var_lines x.1 x.2).
Proof.
  intros Hfq.
  assert (lines (env_vars fqdns +:+ LF +:+ "")
          = block (x ← enumerate fqdns; env_var_lines x.1 x.2) ++ [""]) as H.
  { rewrite <- app_assoc_s, env_vars_block.
    rewrite lines_unlines_app; [done|].
    apply Forall_block; [done|]. apply Forall_bind, Forall_forall.
    intros [idx fqdn] [_ Hin%list_elem_of_lookup_2]%enumerate_elem.
    rewrite Forall_forall in Hfq. specialize (Hfq _ Hin).
    unfold env_var_lines. cbn. newline_free_lines. }
  rewrite lines_app_LF in H. by apply app_inv_tail in H.
Qed.

Lemma deployment_head_line r n cm_names fqdns i k :
  (k < 27)%nat →
  lines (deployment_doc r n cm_names fqdns i) !! k = deployment_head r i !! k.
Proof.
  intros Hk. rewrite lines_deployment_doc_gen. by apply lookup_app_l.
Qed.

Lemma deployment_has_volume r n cm_names fqdns i idx name :
  Forall (λ l, newline_free l = true) cm_names →
  0 ≤ idx → cm_names !! Z.to_nat idx = Some name →
  has_block (volume_lines idx name) (lines (deployment_doc r n cm_names fqdns i)).
Proof.
  intros Hcm Hidx Hname. rewrite lines_deployment_doc_gen, lines_volumes by done.
  do 7 apply has_block_app_r. apply has_block_app_l.
  apply has_block_block; [done|].
  apply (has_block_bind (λ x, volume_lines x.1 x.2) _ (idx, name)).
  by apply enumerate_elem_2.
Qed.

Lemma deployment_has_volume_mount r n cm_names fqdns i idx :
  0 ≤ idx < len cm_names →
  has_block (volume_mount_lines idx) (lines (deployment_doc r n cm_names fqdns i)).
Proof.
  intros Hidx. rewrite lines_deployment_doc_gen.
  do 5 apply has_block_app_r. apply has_block_app_l.
  apply has_block_block; [done|].
  apply (has_block_bind volume_mount_lines). by apply elem_of_seqZ.
Qed.

Lemma deployment_has_env_var r n cm_names fqdns i idx fqdn :
  Forall (λ l, newline_free l = true) fqdns →
  0 ≤ idx → fqdns !! Z.to_nat idx = Some fqdn →
  has_block (env_var_lines idx fqdn) (lines (deployment_doc r n cm_names fqdns i)).
Proof.
  intros Hfq Hidx Hname. rewrite lines_deployment_doc_gen, lines_env_vars by done.
  apply has_block_app_r, has_block_app_l.
  apply has_block_block; [done|].
  apply (has_block_bind (λ x, env_var_lines x.1 x.2) _ (idx, fqdn)).
  by apply enumerate_elem_2.
Qed.

Lemma deployment_has_secret_ref r n cm_names fqdns i j :
  0 ≤ j < n →
  has_block (env_from_lines r j) (lines (deployment_doc r n cm_names fqdns i)).
Proof.
  intros Hj. rewrite lines_deployment_doc_gen.
  do 3 apply has_block_app_r. apply has_block_app_l.
  apply has_block_block; [done|].
  apply (has_block_bind (env_from_lines r)). by apply elem_of_seqZ.
Qed.

Lemma ingress_has_path r n i :
  0 ≤ i < n → has_block (path_lines r i) (lines (ingress_doc r n)).
Proof.
  intros Hi. rewrite lines_ingress_doc. unfold ingress_lines.
  apply has_block_app_l, has_block_app_r.
  apply has_block_block; [done|].
  apply (has_block_bind (path_lines r)). by apply elem_of_seqZ.
Qed.

(** ** Kind and name of every document *)

Lemma release_docs_lookup_cases r n cm_names fqdns k d :
  release_docs r n cm_names fqdns !! k = Some d →
  (∃ i, 0 ≤ i < n ∧ k = Z.to_nat i ∧ d = configmap_doc r i) ∨
  (∃ i, 0 ≤ i < n ∧ k = Z.to_nat (n + i) ∧ d = secret_doc r i) ∨
  (∃ i, 0 ≤ i < n ∧ k = Z.to_nat (2 * n + i)
        ∧ d = deployment_doc r n cm_names fqdns i) ∨
  (∃ i, 0 ≤ i < n ∧ k = Z.to_nat (3 * n + i) ∧ d = service_doc r i) ∨
  (k = Z.to_nat (4 * n) ∧ d = ingress_doc r n).
Proof.
  assert (∀ (f : Z → string) j x,
    (f <$> range n) !! j = Some x →
    ∃ i, 0 ≤ i < n ∧ j = Z.to_nat i ∧ x = f i) as Hgroup.
  { intros f j x. rewrite list_lookup_fmap. unfold range.
    destruct (seqZ 0 n !! j) as [i|] eqn:Hj; [|done].
    apply lookup_seqZ in Hj as [-> Hlt]. intros [= <-].
    exists (Z.of_nat j). rewrite Z.add_0_l. split_and!; try done; lia. }
  assert (∀ (f : Z → string), length (f <$> range n) = Z.to_nat n) as Hlen.
  { intros f. rewrite length_fmap. apply length_seqZ. }
  rewrite release_docs_eq.
  intros [H|[Hk H]]%lookup_app_Some.
  { apply Hgroup in H as (i & ? & ? & ?). left. eauto. }
  rewrite Hlen in Hk, H. apply lookup_app_Some in H as [H|[Hk2 H]].
  { apply Hgroup in H as (i & ? & ? & ?). right. left.
    exists i. split_and!; try done; lia. }
  rewrite Hlen in Hk2, H. apply lookup_app_Some in H as [H|[Hk3 H]].
  { apply Hgroup in H as (i & ? & ? & ?). do 2 right. left.
    exists i. split_and!; try done; lia. }
  rewrite Hlen in Hk3, H. apply lookup_app_Some in H as [H|[Hk4 H]].
  { apply Hgroup in H as (i & ? & ? & ?). do 3 right. left.
    exists i. split_and!; try done; lia. }
  rewrite Hlen in Hk4, H. do 4 right.
  apply list_lookup_singleton_Some in H as [H <-]. split; [lia|done].
Qed.

Lemma name_line_configmap r i :
  lines (configmap_doc r i) !! 3%nat
  = Some ("  name: r" +:+ fmt_d 3 r +:+ "-config-" +:+ fmt_d 3 i).
Proof. by rewrite lines_configmap_doc. Qed.

Lemma name_line_secret r i :
  lines (secret_doc r i) !! 3%nat
  = Some ("  name: r" +:+ fmt_d 3 r +:+ "-secret-" +:+ fmt_d 3 i).
Proof. by rewrite lines_secret_doc. Qed.

Lemma name_line_deployment r n cm_names fqdns i :
  lines (deployment_doc r n cm_names fqdns i) !! 3%nat
  = Some ("  name: r" +:+ fmt_d 3 r +:+ "-app-" +:+ fmt_d 3 i).
Proof. by rewrite deployment_head_line by lia. Qed.

Lemma name_line_service r i :
  lines (service_doc r i) !! 3%nat
  = Some ("  name: r" +:+ fmt_d 3 r +:+ "-app-" +:+ fmt_d 3 i).
Proof. by rewrite lines_service_doc. Qed.

Lemma name_line_ingress r n :
  lines (ingress_doc r n) !! 3%nat
  = Some ("  name: r" +:+ fmt_d 3 r +:+ "-ingress").
Proof. by rewrite lines_ingress_doc. Qed.

(** Names of the form [rR-word-I]: the release and the index are read back
    from the name. *)
Lemma dashed_name_inj (word : string) r i r' i' :
  0 ≤ r → 0 ≤ i → 0 ≤ r' → 0 ≤ i' →
  "  name: r" +:+ fmt_d 3 r +:+ String "-" (word +:+ fmt_d 3 i)
  = "  name: r" +:+ fmt_d 3 r' +:+ String "-" (word +:+ fmt_d 3 i') →
  r = r' ∧ i = i'.
Proof.
  intros Hr Hi Hr' Hi' Heq%(inj (String.app _)).
  apply split_at_separator in Heq as [Hrr Hii];
    [|done|by apply all_digits_fmt_d..].
  apply fmt_d_inj in Hrr; [|done..].
  apply (inj (String.app _)) in Hii.
  apply fmt_d_inj in Hii; done.
Qed.

Lemma ingress_name_inj r r' :
  0 ≤ r → 0 ≤ r' →
  "  name: r" +:+ fmt_d 3 r +:+ "-ingress"
  = "  name: r" +:+ fmt_d 3 r' +:+ "-ingress" → r = r'.
Proof.
  intros Hr Hr' Heq%(inj (String.app _)).
  apply (split_at_separator "-" _ _ "ingress" "ingress") in Heq as [Hrr _];
    [|done|by apply all_digits_fmt_d..].
  by apply fmt_d_inj in Hrr.
Qed.

(** ** Paths of the output *)

Lemma digits_nonempty m : digits m ≠ "".
Proof.
  unfold digits. destruct m as [|p]; [done|].
  cbn [N.to_uint].
  pose proof (Stdlib.Numbers.DecimalPos.Unsigned.to_uint_nonnil p) as Hp.
  by destruct (Pos.to_uint p).
Qed.

Lemma fmt_d_nonempty w z : fmt_d w z ≠ "".
Proof.
  unfold fmt_d. pose proof (digits_nonempty (Z.abs_N z)) as Hd.
  destruct (z <? 0); [done|].
  destruct (zeros _); [|done]. done.
Qed.

Lemma is_digit_not_slash c : is_digit c = true → Ascii.eqb c "/" = false.
Proof. by destruct c as [[] [] [] [] [] [] [] []]. Qed.

Lemma ends_with_slash_app a b :
  b ≠ "" → Py.ends_with_slash (a +:+ b) = Py.ends_with_slash b.
Proof.
  intros Hb. induction a as [|c a IH]; [done|].
  rewrite app_cons_s. cbn [Py.ends_with_slash]. rewrite IH.
  destruct (a +:+ b) eqn:E; [|done].
  destruct a; [|done]. by destruct b.
Qed.

Lemma ends_with_slash_digits s :
  all_digits s = true → Py.ends_with_slash s = false.
Proof.
  induction s as [|c s IH]; [done|].
  cbn [all_digits Py.ends_with_slash]. intros [Hc Hs]%andb_true_iff.
  destruct s; [by apply is_digit_not_slash|by apply IH].
Qed.

Lemma path_join_relative a b :
  a ≠ "" → String.prefix "/" b = false →
  Py.path_join a b = (if Py.ends_with_slash a then a else a +:+ "/") +:+ b.
Proof.
  intros Ha Hb. unfold Py.path_join. rewrite Hb.
  apply String.eqb_neq in Ha. rewrite Ha. cbn [orb].
  destruct (Py.ends_with_slash a); [done|]. by rewrite app_assoc_s.
Qed.

Lemma or_default_nonempty o d : d ≠ "" → Py.or_default o d ≠ "".
Proof.
  intros Hd. destruct o as [s|]; [|done]. cbn.
  destruct (String.eqb_spec s ""); done.
Qed.

(** The directory and the file of a release under a non-empty output
    directory. *)
Lemma release_dir_path output r :
  output ≠ "" → 0 ≤ r →
  Py.path_join output ("release-" +:+ fmt_d 3 r)
  = (if Py.ends_with_slash output then output else output +:+ "/")
    +:+ "release-" +:+ fmt_d 3 r.
Proof. intros. by apply path_join_relative. Qed.

Lemma manifest_path output r :
  output ≠ "" → 0 ≤ r →
  Py.path_join (Py.path_join output ("release-" +:+ fmt_d 3 r)) "manifests.yaml"
  = (if Py.ends_with_slash output then output else output +:+ "/")
    +:+ "release-" +:+ fmt_d 3 r +:+ "/manifests.yaml".
Proof.
  intros Ho Hr. rewrite release_dir_path by done.
  set (root := if Py.ends_with_slash output then output else output +:+ "/").
  rewrite path_join_relative; [| |done].
  - rewrite <- app_assoc_s.
    rewrite ends_with_slash_app by apply fmt_d_nonempty.
    rewrite ends_with_slash_digits by (by apply all_digits_fmt_d).
    by rewrite !app_assoc_s.
  - by destruct root.
Qed.

(** The file-system events of a run with a valid scale factor, with the
    paths written out. *)
Lemma fs_events_main n args_output h :
  1 ≤ n →
  let output :=
    Py.or_default args_output
      ("/tmp/h2c-torture-" +:+ fmt_d 0 n +:+ "/manifests") in
  let root := if Py.ends_with_slash output then output else output +:+ "/" in
  fs_events (Py.run h (Py.main n args_output)).2
  = Py.Makedirs output
    :: (r ← range n;
        [Py.Makedirs (root +:+ "release-" +:+ fmt_d 3 r);
         Py.WriteFile (root +:+ "release-" +:+ fmt_d 3 r +:+ "/manifests.yaml")
           (generate_release r n (all_configmap_names n) (all_service_fqdns n))]).
Proof.
  intros Hn output root. rewrite main_run by done. cbn [snd]. fold output.
  assert (output ≠ "") as Ho by (by apply or_default_nonempty).
  unfold fs_events. rewrite !List.filter_app.
  cbn [List.filter touches_fs app]. rewrite app_nil_r. f_equal.
  assert (Forall (λ r, 0 ≤ r) (range n)) as Hrange.
  { apply Forall_forall. intros r Hr%elem_of_seqZ. lia. }
  induction Hrange as [|r rs Hr _ IH]; [done|].
  cbn [mbind list_bind app List.filter touches_fs].
  rewrite IH, manifest_path, release_dir_path by done. done.
Qed.

(** ** Counting lines in the text of a release *)




Lemma count_volumes_deployment r n cm_names fqdns i :
  count_lines (starts_with "        - name: cm-")
    (deployment_lines r n cm_names fqdns i) = length cm_names.
Proof.
  unfold count_lines. rewrite following_0_deployment_lines by done.
  drop_empty_blocks. drop_fixed_lines.
  rewrite (length_bind_singleton _
    (λ x, "        - name: cm-" +:+ fmt_d 4 x.1)) by done.
  apply enumerate_length.
Qed.






Lemma sum_list_with_const {A} (f : A → nat) (c : nat) (l : list A) :
  Forall (λ x, f x = c) l → sum_list_with f l = (length l * c)%nat.
Proof.
  induction 1 as [|x l Hx _ IH]; [done|].
  cbn. rewrite Hx, IH. lia.
Qed.



(** The release is read back from a secret reference. *)
Lemma secret_ref_release_inj r j r' j' :
  0 ≤ r → 0 ≤ r' →
  "                name: r" +:+ fmt_d 3 r +:+ "-secret-" +:+ fmt_d 3 j
  = "                name: r" +:+ fmt_d 3 r' +:+ "-secret-" +:+ fmt_d 3 j' →
  r = r'.
Proof.
  intros Hr Hr' Heq%(inj (String.app _)).
  change ("-secret-" +:+ ?x) with (String "-" ("secret-" +:+ x)) in Heq.
  apply split_at_separator in Heq as [Hrr _];
    [|done|by apply all_digits_fmt_d..].
  by apply fmt_d_inj in Hrr.
Qed.

Lemma following_secret_refs r n cm_names fqdns i :
  Forall (λ l, newline_free l = true) cm_names →
  Forall (λ l, newline_free l = true) fqdns →
  following 1 (String.eqb "            - secretRef:")
    (lines (deployment_doc r n cm_names fqdns i))
  = (λ j, "                name: r" +:+ fmt_d 3 r +:+ "-secret-" +:+ fmt_d 3 j)
    <$> range n.
Proof.
  intros Hcm Hfq. rewrite !following_deployment_doc by done.
  drop_empty_blocks. drop_fixed_lines. by apply bind_singleton.
Qed.

(** * Properties of the generator *)

(** ** Name derivation *)

(** C3: for [n >= 1] both name lists have exactly [n * n] elements, ordered
    release index major and per-release index minor: the element at position
    [r * n + i] is the ConfigMap name (respectively the service FQDN) of
    release [r], index [i]. *)
Theorem name_lists_layout n r i :
  1 ≤ n → 0 ≤ r < n → 0 ≤ i < n →
  len (all_configmap_names n) = n * n ∧
  len (all_service_fqdns n) = n * n ∧
  all_configmap_names n !! Z.to_nat (r * n + i)
    = Some ("r" +:+ fmt_d 3 r +:+ "-config-" +:+ fmt_d 3 i) ∧
  all_service_fqdns n !! Z.to_nat (r * n + i)
    = Some ("r" +:+ fmt_d 3 r +:+ "-app-" +:+ fmt_d 3 i
            +:+ ".default.svc.cluster.local").
Proof.
  intros Hn Hr Hi. unfold all_configmap_names, all_service_fqdns.
  rewrite !comprehension_length by lia.
  rewrite (comprehension_lookup configmap_name) by done.
  rewrite (comprehension_lookup service_fqdn) by done.
  done.
Qed.

Lemma name_lists_layout_witness :
  len (all_configmap_names 2) = 2 * 2 ∧
  len (all_service_fqdns 2) = 2 * 2 ∧
  all_configmap_names 2 !! Z.to_nat (1 * 2 + 0)
    = Some ("r" +:+ fmt_d 3 1 +:+ "-config-" +:+ fmt_d 3 0) ∧
  all_service_fqdns 2 !! Z.to_nat (1 * 2 + 0)
    = Some ("r" +:+ fmt_d 3 1 +:+ "-app-" +:+ fmt_d 3 0
            +:+ ".default.svc.cluster.local").
Proof. apply (name_lists_layout 2 1 0); lia. Defined.

(** C7: the naming scheme is injective on the pairs [(r, i)] of a run, for
    every [n] (also beyond the three digits of the padding): neither list
    holds a name twice, and two positions [r * n + i] and [r' * n + i'] that
    hold the same name are the same pair. *)
Theorem names_injective n r i r' i' :
  1 ≤ n → 0 ≤ r < n → 0 ≤ i < n → 0 ≤ r' < n → 0 ≤ i' < n →
  NoDup (all_configmap_names n) ∧
  NoDup (all_service_fqdns n) ∧
  (all_configmap_names n !! Z.to_nat (r * n + i)
     = all_configmap_names n !! Z.to_nat (r' * n + i') → r = r' ∧ i = i') ∧
  (all_service_fqdns n !! Z.to_nat (r * n + i)
     = all_service_fqdns n !! Z.to_nat (r' * n + i') → r = r' ∧ i = i').
Proof.
  intros Hn Hr Hi Hr' Hi'. unfold all_configmap_names, all_service_fqdns.
  split_and!.
  - apply comprehension_NoDup, configmap_name_inj.
  - apply comprehension_NoDup, service_fqdn_inj.
  - rewrite !(comprehension_lookup configmap_name) by done.
    intros Heq%(inj Some). apply configmap_name_inj in Heq; [done|lia..].
  - rewrite !(comprehension_lookup service_fqdn) by done.
    intros Heq%(inj Some). apply service_fqdn_inj in Heq; [done|lia..].
Qed.

Lemma names_injective_witness :
  NoDup (all_configmap_names 1001) ∧
  NoDup (all_service_fqdns 1001) ∧
  (all_configmap_names 1001 !! Z.to_nat (1000 * 1001 + 1)
     = all_configmap_names 1001 !! Z.to_nat (100 * 1001 + 1)
   → 1000 = 100 ∧ 1 = 1) ∧
  (all_service_fqdns 1001 !! Z.to_nat (1000 * 1001 + 1)
     = all_service_fqdns 1001 !! Z.to_nat (100 * 1001 + 1)
   → 1000 = 100 ∧ 1 = 1).
Proof. apply (names_injective 1001 1000 1 100 1); lia. Defined.

(** C10: for [n <= 0] both name derivations return the empty list; run on
    the store, each completes normally (no error, no exit) with a new,
    empty list object.  Nothing in them rejects [n]. *)
Theorem name_lists_nonpositive n σ :
  n ≤ 0 →
  all_configmap_names n = [] ∧
  all_service_fqdns n = [] ∧
  (∃ ℓ σ', Py.all_configmap_names n σ = (Py.Val ℓ, σ')
           ∧ Py.heap σ' !! ℓ = Some []) ∧
  (∃ ℓ σ', Py.all_service_fqdns n σ = (Py.Val ℓ, σ')
           ∧ Py.heap σ' !! ℓ = Some []).
Proof.
  intros Hn. unfold Py.all_configmap_names, Py.all_service_fqdns.
  rewrite (comprehension_nil configmap_name), (comprehension_nil service_fqdn)
    by done.
  unfold all_configmap_names, all_service_fqdns.
  rewrite (comprehension_nil configmap_name), (comprehension_nil service_fqdn)
    by done.
  split_and!; [done|done|..];
    eexists _, _; (split; [reflexivity|]); cbn; apply lookup_insert_eq.
Qed.

Lemma name_lists_nonpositive_witness :
  all_configmap_names (-1) = [] ∧
  all_service_fqdns (-1) = [] ∧
  (∃ ℓ σ', Py.all_configmap_names (-1) (Py.State ∅ []) = (Py.Val ℓ, σ')
           ∧ Py.heap σ' !! ℓ = Some []) ∧
  (∃ ℓ σ', Py.all_service_fqdns (-1) (Py.State ∅ []) = (Py.Val ℓ, σ')
           ∧ Py.heap σ' !! ℓ = Some []).
Proof. apply (name_lists_nonpositive (-1) (Py.State ∅ [])). lia. Defined.

(** ** Release document assembly *)

(** C5: for [n >= 1] the text of a release is its [4 * n + 1] documents
    joined by the three-dash separator line, in the order [n] ConfigMaps,
    [n] Secrets, [n] Deployments, [n] Services, one Ingress; the Ingress has
    exactly [n] paths, the one for [i] routing [/svc-i] to the service
    [r-app-i] of the same release.  When the names passed in fit on one line
    each, the text has exactly [4 * n] separator lines and its [kind:] lines
    read in that order. *)
Theorem release_layout r n cm_names fqdns :
  1 ≤ n →
  let docs := release_docs r n cm_names fqdns in
  let text := generate_release r n cm_names fqdns in
  text = join ("---" +:+ LF) docs ∧
  len docs = 4 * n + 1 ∧
  kind_of <$> docs
    = replicate (Z.to_nat n) (Some "kind: ConfigMap")
      ++ replicate (Z.to_nat n) (Some "kind: Secret")
      ++ replicate (Z.to_nat n) (Some "kind: Deployment")
      ++ replicate (Z.to_nat n) (Some "kind: Service")
      ++ [Some "kind: Ingress"] ∧
  (∃ ingress, last docs = Some ingress ∧
     following 0 (starts_with "          - path: ") (lines ingress)
       = (λ i, "          - path: /svc-" +:+ fmt_d 3 i) <$> range n ∧
     following 4 (starts_with "          - path: ") (lines ingress)
       = (λ i, "                name: r" +:+ fmt_d 3 r +:+ "-app-" +:+ fmt_d 3 i)
         <$> range n) ∧
  (Forall (λ s, newline_free s = true) cm_names →
   Forall (λ s, newline_free s = true) fqdns →
   count_lines (String.eqb "---") (lines text) = Z.to_nat (4 * n) ∧
   following 0 (starts_with "kind: ") (lines text)
     = replicate (Z.to_nat n) "kind: ConfigMap"
       ++ replicate (Z.to_nat n) "kind: Secret"
       ++ replicate (Z.to_nat n) "kind: Deployment"
       ++ replicate (Z.to_nat n) "kind: Service"
       ++ ["kind: Ingress"]).
Proof.
  intros Hn docs text. subst docs text. split_and!.
  - done.
  - apply release_docs_length. lia.
  - apply release_docs_kinds.
  - exists (ingress_doc r n). split_and!.
    + rewrite release_docs_eq, !app_assoc. apply last_snoc.
    + rewrite following_ingress_doc by (intros; first [done | apply closed_0]).
      rewrite app_nil_l. by apply bind_singleton.
    + rewrite following_ingress_doc by done.
      rewrite app_nil_l. by apply bind_singleton.
  - intros Hcm Hfq. rewrite lines_generate_release by done. split.
    + unfold count_lines. rewrite following_0_app, app_nil_r.
      fold (count_lines (String.eqb "---")
              (separated (release_lines r n cm_names fqdns))).
      rewrite count_separators by apply no_separator_in_release.
      pose proof (release_docs_length r n cm_names fqdns) as Hlen.
      rewrite release_docs_unlines in Hlen. unfold len in Hlen.
      rewrite length_fmap in Hlen. lia.
    + rewrite following_0_app, app_nil_r.
      rewrite following_0_separated by done.
      apply kinds_in_release.
Qed.

Lemma release_layout_witness :
  let docs := release_docs 1 2 (all_configmap_names 2) (all_service_fqdns 2) in
  let text := generate_release 1 2 (all_configmap_names 2) (all_service_fqdns 2) in
  text = join ("---" +:+ LF) docs ∧
  len docs = 4 * 2 + 1 ∧
  kind_of <$> docs
    = replicate (Z.to_nat 2) (Some "kind: ConfigMap")
      ++ replicate (Z.to_nat 2) (Some "kind: Secret")
      ++ replicate (Z.to_nat 2) (Some "kind: Deployment")
      ++ replicate (Z.to_nat 2) (Some "kind: Service")
      ++ [Some "kind: Ingress"] ∧
  (∃ ingress, last docs = Some ingress ∧
     following 0 (starts_with "          - path: ") (lines ingress)
       = (λ i, "          - path: /svc-" +:+ fmt_d 3 i) <$> range 2 ∧
     following 4 (starts_with "          - path: ") (lines ingress)
       = (λ i, "                name: r" +:+ fmt_d 3 1 +:+ "-app-" +:+ fmt_d 3 i)
         <$> range 2) ∧
  (Forall (λ s, newline_free s = true) (all_configmap_names 2) →
   Forall (λ s, newline_free s = true) (all_service_fqdns 2) →
   count_lines (String.eqb "---") (lines text) = Z.to_nat (4 * 2) ∧
   following 0 (starts_with "kind: ") (lines text)
     = replicate (Z.to_nat 2) "kind: ConfigMap"
       ++ replicate (Z.to_nat 2) "kind: Secret"
       ++ replicate (Z.to_nat 2) "kind: Deployment"
       ++ replicate (Z.to_nat 2) "kind: Service"
       ++ ["kind: Ingress"]).
Proof.
  apply (release_layout 1 2 (all_configmap_names 2) (all_service_fqdns 2)). lia.
Defined.

(** C4: in every Deployment document of a release the [envFrom:] key is
    followed by exactly [n] secret references, the [j]-th naming the Secret
    [r-secret-j] of the deployment's own release [r], and then by the
    [volumeMounts:] key.  When the names passed in fit on one line each, the
    whole document has exactly [n] secret references (which is not [n * n]
    as soon as [n > 1]), and the names under them are those [n] Secrets. *)
Theorem env_from_own_release r n cm_names fqdns d :
  1 ≤ n →
  d ∈ release_docs r n cm_names fqdns →
  kind_of d = Some "kind: Deployment" →
  has_block
    (["          envFrom:"]
     ++ (j ← range n;
         ["            - secretRef:";
          "                name: r" +:+ fmt_d 3 r +:+ "-secret-" +:+ fmt_d 3 j])
     ++ ["          volumeMounts:"])
    (lines d) ∧
  (Forall (λ s, newline_free s = true) cm_names →
   Forall (λ s, newline_free s = true) fqdns →
   count_lines (String.eqb "            - secretRef:") (lines d) = Z.to_nat n ∧
   (1 < n →
    count_lines (String.eqb "            - secretRef:") (lines d)
      ≠ Z.to_nat (n * n)) ∧
   following 1 (String.eqb "            - secretRef:") (lines d)
     = (λ j, "                name: r" +:+ fmt_d 3 r +:+ "-secret-" +:+ fmt_d 3 j)
       <$> range n).
Proof.
  intros Hn Hd Hkind.
  destruct (deployment_of_release _ _ _ _ _ Hd Hkind) as (i & Hi & ->).
  split.
  - rewrite lines_deployment_doc_gen.
    rewrite (block_nonempty (j ← range n; env_from_lines r j))
      by (by rewrite range_nonempty).
    exists (deployment_head r i ++ lines (env_vars fqdns)),
      (block (idx ← range (len cm_names); volume_mount_lines idx)
       ++ deployment_sidecar ++ lines (volumes cm_names) ++ [""]).
    by rewrite <- !app_assoc.
  - intros Hcm Hfq.
    assert (count_lines (String.eqb "            - secretRef:")
              (lines (deployment_doc r n cm_names fqdns i)) = Z.to_nat n)
      as Hcount.
    { unfold count_lines.
      rewrite !following_deployment_doc
        by (intros; first [done | apply closed_0]).
      drop_empty_blocks. drop_fixed_lines.
      rewrite (length_bind_singleton _ (λ _, "            - secretRef:"))
        by done.
      apply length_seqZ. }
    split_and!.
    + done.
    + intros Hn'. rewrite Hcount. nia.
    + rewrite !following_deployment_doc by done.
      drop_empty_blocks. drop_fixed_lines. by apply bind_singleton.
Qed.

Lemma env_from_own_release_witness :
  let cm_names := all_configmap_names 2 in
  let fqdns := all_service_fqdns 2 in
  let d := deployment_doc 1 2 cm_names fqdns 0 in
  has_block
    (["          envFrom:"]
     ++ (j ← range 2;
         ["            - secretRef:";
          "                name: r" +:+ fmt_d 3 1 +:+ "-secret-" +:+ fmt_d 3 j])
     ++ ["          volumeMounts:"])
    (lines d) ∧
  (Forall (λ s, newline_free s = true) cm_names →
   Forall (λ s, newline_free s = true) fqdns →
   count_lines (String.eqb "            - secretRef:") (lines d) = Z.to_nat 2 ∧
   (1 < 2 →
    count_lines (String.eqb "            - secretRef:") (lines d)
      ≠ Z.to_nat (2 * 2)) ∧
   following 1 (String.eqb "            - secretRef:") (lines d)
     = (λ j, "                name: r" +:+ fmt_d 3 1 +:+ "-secret-" +:+ fmt_d 3 j)
       <$> range 2).
Proof.
  apply (env_from_own_release 1 2 (all_configmap_names 2) (all_service_fqdns 2)).
  - lia.
  - apply (bool_decide_unpack _). vm_compute. exact I.
  - vm_compute. reflexivity.
Defined.

(** C2: in a run of the pipeline every Deployment document of every release
    has exactly [n * n] volumeMount entries, [n * n] volume entries and
    [n * n] environment variables; the variables are named [SVC_idx] in
    order of [idx], and the value under the variable [idx] is the URL built
    on the service FQDN at position [idx]. *)
Theorem deployment_cross_references r n d :
  1 ≤ n →
  d ∈ release_docs r n (all_configmap_names n) (all_service_fqdns n) →
  kind_of d = Some "kind: Deployment" →
  count_lines (starts_with "            - name: cm-") (lines d)
    = Z.to_nat (n * n) ∧
  count_lines (starts_with "        - name: cm-") (lines d)
    = Z.to_nat (n * n) ∧
  count_lines (starts_with "            - name: SVC_") (lines d)
    = Z.to_nat (n * n) ∧
  following 0 (starts_with "            - name: SVC_") (lines d)
    = (λ idx, "            - name: SVC_" +:+ fmt_d 4 idx) <$> range (n * n) ∧
  following 1 (starts_with "            - name: SVC_") (lines d)
    = (λ fqdn, "              value: " +:+ DQ +:+ "http://" +:+ fqdn
               +:+ ":8080/api" +:+ DQ)
      <$> all_service_fqdns n.
Proof.
  intros Hn Hd Hkind.
  destruct (deployment_of_release _ _ _ _ _ Hd Hkind) as (i & Hi & ->).
  pose proof (all_configmap_names_newline_free n) as Hcm.
  pose proof (all_service_fqdns_newline_free n) as Hfq.
  assert (len (all_configmap_names n) = n * n) as Hlcm
    by (apply (comprehension_length configmap_name); lia).
  assert (len (all_service_fqdns n) = n * n) as Hlfq
    by (apply (comprehension_length service_fqdn); lia).
  unfold count_lines.
  rewrite !following_deployment_doc by (intros; first [done | apply closed_0]).
  drop_empty_blocks. drop_fixed_lines.
  rewrite Hlcm.
  split_and!.
  - rewrite (length_bind_singleton _
      (λ idx, "            - name: cm-" +:+ fmt_d 4 idx)) by done.
    apply length_seqZ.
  - rewrite (length_bind_singleton _
      (λ x, "        - name: cm-" +:+ fmt_d 4 x.1)) by done.
    rewrite enumerate_length. unfold len in Hlcm. lia.
  - rewrite (length_bind_singleton _
      (λ x, "            - name: SVC_" +:+ fmt_d 4 x.1)) by done.
    rewrite enumerate_length. unfold len in Hlfq. lia.
  - rewrite (bind_singleton _
      (λ x, "            - name: SVC_" +:+ fmt_d 4 x.1)) by done.
    rewrite <- Hlfq, <- enumerate_fst, <- list_fmap_compose. done.
  - rewrite (bind_singleton _
      (λ x, "              value: " +:+ DQ +:+ "http://" +:+ x.2
            +:+ ":8080/api" +:+ DQ)) by done.
    rewrite <- (enumerate_snd (all_service_fqdns n)) at 2.
    rewrite <- list_fmap_compose. done.
Qed.

Lemma deployment_cross_references_witness :
  let d := deployment_doc 1 2 (all_configmap_names 2) (all_service_fqdns 2) 1 in
  count_lines (starts_with "            - name: cm-") (lines d)
    = Z.to_nat (2 * 2) ∧
  count_lines (starts_with "        - name: cm-") (lines d)
    = Z.to_nat (2 * 2) ∧
  count_lines (starts_with "            - name: SVC_") (lines d)
    = Z.to_nat (2 * 2) ∧
  following 0 (starts_with "            - name: SVC_") (lines d)
    = (λ idx, "            - name: SVC_" +:+ fmt_d 4 idx) <$> range (2 * 2) ∧
  following 1 (starts_with "            - name: SVC_") (lines d)
    = (λ fqdn, "              value: " +:+ DQ +:+ "http://" +:+ fqdn
               +:+ ":8080/api" +:+ DQ)
      <$> all_service_fqdns 2.
Proof.
  apply (deployment_cross_references 1 2).
  - lia.
  - apply (bool_decide_unpack _). vm_compute. exact I.
  - vm_compute. reflexivity.
Defined.

(** C1: in every Deployment document of a release generated from the
    global ConfigMap names, the volume named [cm-idx] is bound to the
    ConfigMap name at position [idx] of that list, and the volumeMount named
    [cm-idx] mounts at [/etc/config/idx]: the document holds the three lines
    of that volume and the three lines of that volumeMount.  When the FQDNs
    passed in fit on one line each, no other line of the document carries
    either name: each is found once, followed by that binding. *)
Theorem volume_bound_by_position r n fqdns d idx :
  1 ≤ n →
  d ∈ release_docs r n (all_configmap_names n) fqdns →
  kind_of d = Some "kind: Deployment" →
  0 ≤ idx < n * n →
  ∃ name,
    all_configmap_names n !! Z.to_nat idx = Some name ∧
    has_block ["        - name: cm-" +:+ fmt_d 4 idx;
               "          configMap:";
               "            name: " +:+ name] (lines d) ∧
    has_block ["            - name: cm-" +:+ fmt_d 4 idx;
               "              mountPath: /etc/config/" +:+ fmt_d 4 idx;
               "              readOnly: true"] (lines d) ∧
    (Forall (λ s, newline_free s = true) fqdns →
     following 1 (String.eqb ("        - name: cm-" +:+ fmt_d 4 idx)) (lines d)
       = ["          configMap:"] ∧
     following 2 (String.eqb ("        - name: cm-" +:+ fmt_d 4 idx)) (lines d)
       = ["            name: " +:+ name] ∧
     following 1 (String.eqb ("            - name: cm-" +:+ fmt_d 4 idx)) (lines d)
       = ["              mountPath: /etc/config/" +:+ fmt_d 4 idx]).
Proof.
  intros Hn Hd Hkind Hidx.
  destruct (deployment_of_release _ _ _ _ _ Hd Hkind) as (i & Hi & ->).
  pose proof (all_configmap_names_newline_free n) as Hcm.
  assert (len (all_configmap_names n) = n * n) as Hlen
    by (apply (comprehension_length configmap_name); lia).
  destruct (lookup_lt_is_Some_2 (all_configmap_names n) (Z.to_nat idx))
    as [name Hname]; [unfold len in Hlen; lia|].
  exists name. split; [done|]. split_and!.
  - rewrite lines_deployment_doc_gen, lines_volumes by done.
    do 7 apply has_block_app_r. apply has_block_app_l.
    apply has_block_block; [done|].
    apply (has_block_bind (λ x, volume_lines x.1 x.2) _ (idx, name)).
    apply enumerate_elem_2; [lia|done].
  - rewrite lines_deployment_doc_gen, Hlen.
    do 5 apply has_block_app_r. apply has_block_app_l.
    apply has_block_block; [done|].
    apply (has_block_bind volume_mount_lines).
    apply elem_of_seqZ. lia.
  - intros Hfq.
    rewrite !following_deployment_doc
      by first [ done | intros; done
               | intros; apply closed_entry; [cbn; lia | done] ].
    rewrite Hlen. split_and!.
    + rewrite (bind_enumerate_select _ (all_configmap_names n) idx name);
        [|lia|done|].
      * rewrite (bind_nil _ (enumerate fqdns)), (bind_nil _ (range n)),
          (bind_nil _ (range (n * n))) by done.
        drop_fixed_lines. cbn [fst snd]. unfold volume_lines.
        by rewrite following_hit.
      * intros j y Hj Hne. cbn [fst snd]. unfold volume_lines.
        by rewrite following_miss by (apply eqb_fmt_d_miss; lia).
    + rewrite (bind_enumerate_select _ (all_configmap_names n) idx name);
        [|lia|done|].
      * rewrite (bind_nil _ (enumerate fqdns)), (bind_nil _ (range n)),
          (bind_nil _ (range (n * n))) by done.
        drop_fixed_lines. cbn [fst snd]. unfold volume_lines.
        by rewrite following_hit.
      * intros j y Hj Hne. cbn [fst snd]. unfold volume_lines.
        by rewrite following_miss by (apply eqb_fmt_d_miss; lia).
    + rewrite (bind_range_select _ (n * n) idx); [|lia|].
      * rewrite (bind_nil _ (enumerate fqdns)), (bind_nil _ (range n)),
          (bind_nil _ (enumerate (all_configmap_names n))) by done.
        drop_fixed_lines. unfold volume_mount_lines. by rewrite following_hit.
      * intros j Hj Hne. unfold volume_mount_lines.
        by rewrite following_miss by (apply eqb_fmt_d_miss; lia).
Qed.

Lemma volume_bound_by_position_witness :
  let d := deployment_doc 1 2 (all_configmap_names 2) (all_service_fqdns 2) 0 in
  ∃ name,
    all_configmap_names 2 !! Z.to_nat 3 = Some name ∧
    has_block ["        - name: cm-" +:+ fmt_d 4 3;
               "          configMap:";
               "            name: " +:+ name] (lines d) ∧
    has_block ["            - name: cm-" +:+ fmt_d 4 3;
               "              mountPath: /etc/config/" +:+ fmt_d 4 3;
               "              readOnly: true"] (lines d) ∧
    (Forall (λ s, newline_free s = true) (all_service_fqdns 2) →
     following 1 (String.eqb ("        - name: cm-" +:+ fmt_d 4 3)) (lines d)
       = ["          configMap:"] ∧
     following 2 (String.eqb ("        - name: cm-" +:+ fmt_d 4 3)) (lines d)
       = ["            name: " +:+ name] ∧
     following 1 (String.eqb ("            - name: cm-" +:+ fmt_d 4 3)) (lines d)
       = ["              mountPath: /etc/config/" +:+ fmt_d 4 3]).
Proof.
  apply (volume_bound_by_position 1 2 (all_service_fqdns 2)).
  - lia.
  - apply (bool_decide_unpack _). vm_compute. exact I.
  - vm_compute. reflexivity.
  - lia.
Defined.

(** ** The store and the orchestration layer *)

(** C8: a call of [generate_release] leaves the list objects [cm_names] and
    [fqdns] as they were (they may even be the same object): after the call
    both hold the contents they held before, as does every other object of
    the store, and nothing is asked of the environment; the text returned is
    computed from those contents.  A later call for any release therefore
    reads the same two sequences. *)
Theorem generate_release_frame r n cm_names fqdns σ cm fq :
  Py.heap σ !! cm_names = Some cm →
  Py.heap σ !! fqdns = Some fq →
  ∃ σ',
    Py.generate_release r n cm_names fqdns σ
      = (Py.Val (generate_release r n cm fq), σ') ∧
    Py.heap σ' !! cm_names = Some cm ∧
    Py.heap σ' !! fqdns = Some fq ∧
    (∀ ℓ l, Py.heap σ !! ℓ = Some l → Py.heap σ' !! ℓ = Some l) ∧
    Py.trace σ' = Py.trace σ ∧
    (∀ r', ∃ σ'',
       Py.generate_release r' n cm_names fqdns σ'
         = (Py.Val (generate_release r' n cm fq), σ'')).
Proof.
  intros Hcm Hfq.
  assert (∀ ℓ l, Py.heap σ !! ℓ = Some l →
    <[fresh (dom (Py.heap σ)) := release_docs r n cm fq]> (Py.heap σ) !! ℓ
    = Some l) as Hframe.
  { intros ℓ l Hl. rewrite lookup_insert_ne; [done|].
    intros Heq. apply (is_fresh (dom (Py.heap σ))).
    rewrite Heq. by apply elem_of_dom. }
  eexists. split; [by apply generate_release_run|].
  cbn [Py.heap Py.trace]. split_and!; auto.
  intros r'. eexists. apply generate_release_run; cbn [Py.heap]; auto.
Qed.

Lemma generate_release_frame_witness :
  let σ := Py.State {[ 1%positive := all_configmap_names 2;
                       2%positive := all_service_fqdns 2 ]} [] in
  ∃ σ',
    Py.generate_release 1 2 1%positive 2%positive σ
      = (Py.Val (generate_release 1 2 (all_configmap_names 2)
                   (all_service_fqdns 2)), σ') ∧
    Py.heap σ' !! 1%positive = Some (all_configmap_names 2) ∧
    Py.heap σ' !! 2%positive = Some (all_service_fqdns 2) ∧
    (∀ ℓ l, Py.heap σ !! ℓ = Some l → Py.heap σ' !! ℓ = Some l) ∧
    Py.trace σ' = Py.trace σ ∧
    (∀ r', ∃ σ'',
       Py.generate_release r' 2 1%positive 2%positive σ'
         = (Py.Val (generate_release r' 2 (all_configmap_names 2)
                      (all_service_fqdns 2)), σ'')).
Proof.
  apply (generate_release_frame 1 2 1%positive 2%positive).
  - vm_compute. reflexivity.
  - vm_compute. reflexivity.
Defined.

(** C9: for every [n < 1] the run prints the diagnostic on the error stream
    and ends with exit status 1; that message is the only event of the run,
    so no directory is created and no file is written. *)
Theorem main_rejects_invalid_scale n args_output h :
  n < 1 →
  Py.run h (Py.main n args_output)
    = (1, [Py.Stderr "Error: n must be >= 1"]) ∧
  (Py.run h (Py.main n args_output)).1 ≠ 0 ∧
  Forall (λ e, touches_fs e = false) (Py.run h (Py.main n args_output)).2.
Proof.
  intros Hn.
  assert (Py.run h (Py.main n args_output)
          = (1, [Py.Stderr "Error: n must be >= 1"])) as ->.
  { unfold Py.run. by rewrite main_rejects. }
  split_and!; [done|done|]. by repeat constructor.
Qed.

Lemma main_rejects_invalid_scale_witness :
  Py.run ∅ (Py.main (-1) (Some "/tmp/foo"))
    = (1, [Py.Stderr "Error: n must be >= 1"]) ∧
  (Py.run ∅ (Py.main (-1) (Some "/tmp/foo"))).1 ≠ 0 ∧
  Forall (λ e, touches_fs e = false)
    (Py.run ∅ (Py.main (-1) (Some "/tmp/foo"))).2.
Proof. apply (main_rejects_invalid_scale (-1) (Some "/tmp/foo") ∅). lia. Defined.

(** C6: the generation is a function of [n] alone.  For [n >= 1] the
    contents written by a run are, release by release, the text of
    [generate_release] on the two name lists of [n]; two runs with the same
    [n] write the same contents whatever the output directory and whatever
    the store they start from, and two runs with the same arguments behave
    the same from any two stores. *)
Theorem generation_deterministic n output1 output2 h1 h2 :
  1 ≤ n →
  written (Py.run h1 (Py.main n output1)).2
    = (λ r, generate_release r n (all_configmap_names n) (all_service_fqdns n))
      <$> range n ∧
  written (Py.run h1 (Py.main n output1)).2
    = written (Py.run h2 (Py.main n output2)).2 ∧
  Py.run h1 (Py.main n output1) = Py.run h2 (Py.main n output1).
Proof.
  intros Hn. split_and!.
  - by apply written_main.
  - by rewrite !written_main.
  - by rewrite !main_run.
Qed.

Lemma generation_deterministic_witness :
  written (Py.run ∅ (Py.main 2 None)).2
    = (λ r, generate_release r 2 (all_configmap_names 2) (all_service_fqdns 2))
      <$> range 2 ∧
  written (Py.run ∅ (Py.main 2 None)).2
    = written (Py.run {[ 1%positive := ["x"] ]} (Py.main 2 (Some "/tmp/foo"))).2 ∧
  Py.run ∅ (Py.main 2 None) = Py.run {[ 1%positive := ["x"] ]} (Py.main 2 None).
Proof.
  apply (generation_deterministic 2 None (Some "/tmp/foo") ∅ {[ 1%positive := ["x"] ]}).
  lia.
Defined.

(** ** Cross-references between the documents of the corpus *)

(** X1: Every ConfigMap that a release defines is one that the Deployments
    mount: the [i]-th document of release [r] is a ConfigMap of namespace
    [default] whose name is the element [r * n + i] of the global name list,
    and every Deployment of every release generated from that list holds the
    volume [cm-(r*n+i)] bound to that very name. *)
Theorem configmaps_are_the_mounted_names r n fqdns i r' fqdns' i' :
  0 ≤ r < n → 0 ≤ i < n →
  ∃ d name,
    release_docs r n (all_configmap_names n) fqdns !! Z.to_nat i = Some d ∧
    kind_of d = Some "kind: ConfigMap" ∧
    lines d !! 3%nat = Some ("  name: " +:+ name) ∧
    lines d !! 4%nat = Some "  namespace: default" ∧
    all_configmap_names n !! Z.to_nat (r * n + i) = Some name ∧
    has_block ["        - name: cm-" +:+ fmt_d 4 (r * n + i);
               "          configMap:";
               "            name: " +:+ name]
      (lines (deployment_doc r' n (all_configmap_names n) fqdns' i')).
Proof.
  intros Hr Hi. exists (configmap_doc r i), (configmap_name r i).
  assert (all_configmap_names n !! Z.to_nat (r * n + i)
          = Some (configmap_name r i)) as Hname
    by (by apply (comprehension_lookup configmap_name)).
  split_and!.
  - by apply release_docs_configmap.
  - apply kind_of_configmap.
  - by rewrite lines_configmap_doc.
  - by rewrite lines_configmap_doc.
  - done.
  - apply (deployment_has_volume r' n _ fqdns' i' (r * n + i));
      [apply all_configmap_names_newline_free|nia|done].
Qed.

Lemma configmaps_are_the_mounted_names_witness :
  ∃ d name,
    release_docs 1 2 (all_configmap_names 2) (all_service_fqdns 2)
      !! Z.to_nat 0 = Some d ∧
    kind_of d = Some "kind: ConfigMap" ∧
    lines d !! 3%nat = Some ("  name: " +:+ name) ∧
    lines d !! 4%nat = Some "  namespace: default" ∧
    all_configmap_names 2 !! Z.to_nat (1 * 2 + 0) = Some name ∧
    has_block ["        - name: cm-" +:+ fmt_d 4 (1 * 2 + 0);
               "          configMap:";
               "            name: " +:+ name]
      (lines (deployment_doc 0 2 (all_configmap_names 2) (all_service_fqdns 2) 1)).
Proof.
  apply (configmaps_are_the_mounted_names 1 2 (all_service_fqdns 2) 0
           0 (all_service_fqdns 2) 1); lia.
Defined.

(** X2: Every FQDN that the Deployments put in their environment is the address
    of a Service of the corpus: the Service [i] of release [r] is in
    namespace [default], exposes port 8080, and its name followed by
    [.default.svc.cluster.local] is the element [r * n + i] of the global
    FQDN list; every Deployment of every release generated from that list
    has the variable [SVC_(r*n+i)] whose URL is that FQDN on port 8080. *)
Theorem services_are_the_env_fqdns r n cm_names cm_names' i r' i' :
  0 ≤ r < n → 0 ≤ i < n →
  ∃ d name,
    release_docs r n cm_names (all_service_fqdns n) !! Z.to_nat (3 * n + i)
      = Some d ∧
    kind_of d = Some "kind: Service" ∧
    lines d !! 3%nat = Some ("  name: " +:+ name) ∧
    lines d !! 4%nat = Some "  namespace: default" ∧
    lines d !! 8%nat = Some "    - port: 8080" ∧
    all_service_fqdns n !! Z.to_nat (r * n + i)
      = Some (name +:+ ".default.svc.cluster.local") ∧
    has_block
      ["            - name: SVC_" +:+ fmt_d 4 (r * n + i);
       "              value: " +:+ DQ +:+ "http://" +:+ name
         +:+ ".default.svc.cluster.local:8080/api" +:+ DQ]
      (lines (deployment_doc r' n cm_names' (all_service_fqdns n) i')).
Proof.
  intros Hr Hi. exists (service_doc r i), ("r" +:+ fmt_d 3 r +:+ "-app-" +:+ fmt_d 3 i).
  assert (all_service_fqdns n !! Z.to_nat (r * n + i)
          = Some (service_fqdn r i)) as Hname
    by (by apply (comprehension_lookup service_fqdn)).
  assert (service_fqdn r i
          = ("r" +:+ fmt_d 3 r +:+ "-app-" +:+ fmt_d 3 i)
            +:+ ".default.svc.cluster.local") as Hfqdn
    by (unfold service_fqdn; by rewrite !app_assoc_s).
  split_and!.
  - by apply release_docs_service.
  - apply kind_of_service.
  - by rewrite lines_service_doc.
  - by rewrite lines_service_doc.
  - by rewrite lines_service_doc.
  - by rewrite Hname, Hfqdn.
  - assert ("              value: " +:+ DQ +:+ "http://"
              +:+ ("r" +:+ fmt_d 3 r +:+ "-app-" +:+ fmt_d 3 i)
              +:+ ".default.svc.cluster.local:8080/api" +:+ DQ
            = "              value: " +:+ DQ +:+ "http://"
              +:+ service_fqdn r i +:+ ":8080/api" +:+ DQ) as ->
      by (unfold service_fqdn; by rewrite !app_assoc_s).
    apply (deployment_has_env_var r' n cm_names' (all_service_fqdns n) i'
             (r * n + i) (service_fqdn r i));
      [apply all_service_fqdns_newline_free|nia|done].
Qed.

Lemma services_are_the_env_fqdns_witness :
  ∃ d name,
    release_docs 1 2 (all_configmap_names 2) (all_service_fqdns 2)
      !! Z.to_nat (3 * 2 + 0) = Some d ∧
    kind_of d = Some "kind: Service" ∧
    lines d !! 3%nat = Some ("  name: " +:+ name) ∧
    lines d !! 4%nat = Some "  namespace: default" ∧
    lines d !! 8%nat = Some "    - port: 8080" ∧
    all_service_fqdns 2 !! Z.to_nat (1 * 2 + 0)
      = Some (name +:+ ".default.svc.cluster.local") ∧
    has_block
      ["            - name: SVC_" +:+ fmt_d 4 (1 * 2 + 0);
       "              value: " +:+ DQ +:+ "http://" +:+ name
         +:+ ".default.svc.cluster.local:8080/api" +:+ DQ]
      (lines (deployment_doc 0 2 (all_configmap_names 2) (all_service_fqdns 2) 1)).
Proof.
  apply (services_are_the_env_fqdns 1 2 (all_configmap_names 2)
           (all_configmap_names 2) 0 0 1); lia.
Defined.

(** X3: Every Secret of a release is referenced by the Deployments of that
    release: the document at position [n + j] is an opaque Secret of
    namespace [default], and every Deployment of the same release has a
    [secretRef] entry with that Secret's name (whatever the release index
    and the name lists). *)
Theorem secrets_are_the_env_from r n cm_names fqdns j i :
  0 ≤ j < n →
  ∃ d name,
    release_docs r n cm_names fqdns !! Z.to_nat (n + j) = Some d ∧
    kind_of d = Some "kind: Secret" ∧
    lines d !! 3%nat = Some ("  name: " +:+ name) ∧
    lines d !! 4%nat = Some "  namespace: default" ∧
    lines d !! 5%nat = Some "type: Opaque" ∧
    has_block ["            - secretRef:"; "                name: " +:+ name]
      (lines (deployment_doc r n cm_names fqdns i)).
Proof.
  intros Hj. exists (secret_doc r j), ("r" +:+ fmt_d 3 r +:+ "-secret-" +:+ fmt_d 3 j).
  split_and!.
  - by apply release_docs_secret.
  - apply kind_of_secret.
  - by rewrite lines_secret_doc.
  - by rewrite lines_secret_doc.
  - by rewrite lines_secret_doc.
  - by apply (deployment_has_secret_ref r n cm_names fqdns i j).
Qed.

Lemma secrets_are_the_env_from_witness :
  ∃ d name,
    release_docs 1 2 (all_configmap_names 2) (all_service_fqdns 2)
      !! Z.to_nat (2 + 1) = Some d ∧
    kind_of d = Some "kind: Secret" ∧
    lines d !! 3%nat = Some ("  name: " +:+ name) ∧
    lines d !! 4%nat = Some "  namespace: default" ∧
    lines d !! 5%nat = Some "type: Opaque" ∧
    has_block ["            - secretRef:"; "                name: " +:+ name]
      (lines (deployment_doc 1 2 (all_configmap_names 2) (all_service_fqdns 2) 0)).
Proof.
  apply (secrets_are_the_env_from 1 2 (all_configmap_names 2)
           (all_service_fqdns 2) 1 0); lia.
Defined.

(** X4: The route of a request inside a release: the Ingress sends the path
    [/svc-i] to a Service by name, on port 8080; the Service of that name is
    the document at position [3 * n + i], it forwards to target port 8080
    and selects the pods labelled [app:] with that same name; the Deployment
    at position [2 * n + i] carries that name, selects and labels its pods
    with it, and its main container listens on port 8080. *)
Theorem ingress_reaches_deployment r n cm_names fqdns i :
  0 ≤ i < n →
  ∃ dep svc ing app,
    release_docs r n cm_names fqdns !! Z.to_nat (2 * n + i) = Some dep ∧
    release_docs r n cm_names fqdns !! Z.to_nat (3 * n + i) = Some svc ∧
    release_docs r n cm_names fqdns !! Z.to_nat (4 * n) = Some ing ∧
    kind_of ing = Some "kind: Ingress" ∧
    has_block ["          - path: /svc-" +:+ fmt_d 3 i;
               "            pathType: Prefix";
               "            backend:";
               "              service:";
               "                name: " +:+ app;
               "                port:";
               "                  number: 8080"] (lines ing) ∧
    kind_of svc = Some "kind: Service" ∧
    lines svc !! 3%nat = Some ("  name: " +:+ app) ∧
    lines svc !! 8%nat = Some "    - port: 8080" ∧
    lines svc !! 9%nat = Some "      targetPort: 8080" ∧
    lines svc !! 11%nat = Some ("    app: " +:+ app) ∧
    kind_of dep = Some "kind: Deployment" ∧
    lines dep !! 3%nat = Some ("  name: " +:+ app) ∧
    lines dep !! 11%nat = Some ("      app: " +:+ app) ∧
    lines dep !! 15%nat = Some ("        app: " +:+ app) ∧
    lines dep !! 25%nat = Some "            - containerPort: 8080".
Proof.
  intros Hi.
  exists (deployment_doc r n cm_names fqdns i), (service_doc r i),
    (ingress_doc r n), ("r" +:+ fmt_d 3 r +:+ "-app-" +:+ fmt_d 3 i).
  split_and!.
  - by apply release_docs_deployment.
  - by apply release_docs_service.
  - apply release_docs_ingress. lia.
  - apply kind_of_ingress.
  - by apply (ingress_has_path r n i).
  - apply kind_of_service.
  - by rewrite lines_service_doc.
  - by rewrite lines_service_doc.
  - by rewrite lines_service_doc.
  - by rewrite lines_service_doc.
  - apply kind_of_deployment.
  - by rewrite deployment_head_line by lia.
  - by rewrite deployment_head_line by lia.
  - by rewrite deployment_head_line by lia.
  - by rewrite deployment_head_line by lia.
Qed.

Lemma ingress_reaches_deployment_witness :
  let docs := release_docs 1 2 (all_configmap_names 2) (all_service_fqdns 2) in
  ∃ dep svc ing app,
    docs !! Z.to_nat (2 * 2 + 1) = Some dep ∧
    docs !! Z.to_nat (3 * 2 + 1) = Some svc ∧
    docs !! Z.to_nat (4 * 2) = Some ing ∧
    kind_of ing = Some "kind: Ingress" ∧
    has_block ["          - path: /svc-" +:+ fmt_d 3 1;
               "            pathType: Prefix";
               "            backend:";
               "              service:";
               "                name: " +:+ app;
               "                port:";
               "                  number: 8080"] (lines ing) ∧
    kind_of svc = Some "kind: Service" ∧
    lines svc !! 3%nat = Some ("  name: " +:+ app) ∧
    lines svc !! 8%nat = Some "    - port: 8080" ∧
    lines svc !! 9%nat = Some "      targetPort: 8080" ∧
    lines svc !! 11%nat = Some ("    app: " +:+ app) ∧
    kind_of dep = Some "kind: Deployment" ∧
    lines dep !! 3%nat = Some ("  name: " +:+ app) ∧
    lines dep !! 11%nat = Some ("      app: " +:+ app) ∧
    lines dep !! 15%nat = Some ("        app: " +:+ app) ∧
    lines dep !! 25%nat = Some "            - containerPort: 8080".
Proof.
  apply (ingress_reaches_deployment 1 2 (all_configmap_names 2)
           (all_service_fqdns 2) 1). lia.
Defined.

(** X5: No two resources of the corpus have the same kind and the same name,
    and all are in namespace [default]: two documents, taken from the
    releases [r] and [r'] of one scale [n], that agree on their [kind:] line
    and on their [name:] line are the same document of the same release. *)
Theorem resources_are_unique n r r' cm_names fqdns cm_names' fqdns' k k' d d' :
  0 ≤ r → 0 ≤ r' →
  release_docs r n cm_names fqdns !! k = Some d →
  release_docs r' n cm_names' fqdns' !! k' = Some d' →
  lines d !! 4%nat = Some "  namespace: default" ∧
  (kind_of d = kind_of d' → lines d !! 3%nat = lines d' !! 3%nat →
   r = r' ∧ k = k').
Proof.
  intros Hr Hr' Hd Hd'.
  apply release_docs_lookup_cases in Hd
    as [(i & Hi & -> & ->)|[(i & Hi & -> & ->)|[(i & Hi & -> & ->)
       |[(i & Hi & -> & ->)|[-> ->]]]]];
  (split;
   [ first [ by rewrite lines_configmap_doc | by rewrite lines_secret_doc
           | by rewrite deployment_head_line by lia
           | by rewrite lines_service_doc | by rewrite lines_ingress_doc ] |]);
  apply release_docs_lookup_cases in Hd'
    as [(i' & Hi' & -> & ->)|[(i' & Hi' & -> & ->)|[(i' & Hi' & -> & ->)
       |[(i' & Hi' & -> & ->)|[-> ->]]]]];
  rewrite ?kind_of_configmap, ?kind_of_secret, ?kind_of_deployment,
    ?kind_of_service, ?kind_of_ingress;
  try (intros [=]; fail);
  intros _;
  rewrite ?name_line_configmap, ?name_line_secret, ?name_line_deployment,
    ?name_line_service, ?name_line_ingress;
  intros Hname%(inj Some).
  - change ("-config-" +:+ ?x) with (String "-" ("config-" +:+ x)) in Hname.
    apply dashed_name_inj in Hname as [-> ->]; [done|lia..].
  - change ("-secret-" +:+ ?x) with (String "-" ("secret-" +:+ x)) in Hname.
    apply dashed_name_inj in Hname as [-> ->]; [done|lia..].
  - change ("-app-" +:+ ?x) with (String "-" ("app-" +:+ x)) in Hname.
    apply dashed_name_inj in Hname as [-> ->]; [done|lia..].
  - change ("-app-" +:+ ?x) with (String "-" ("app-" +:+ x)) in Hname.
    apply dashed_name_inj in Hname as [-> ->]; [done|lia..].
  - by apply ingress_name_inj in Hname as ->.
Qed.

Lemma resources_are_unique_witness :
  lines (service_doc 0 1) !! 4%nat = Some "  namespace: default" ∧
  (kind_of (service_doc 0 1) = kind_of (service_doc 1 1) →
   lines (service_doc 0 1) !! 3%nat = lines (service_doc 1 1) !! 3%nat →
   0 = 1 ∧ 7%nat = 7%nat).
Proof.
  apply (resources_are_unique 2 0 1 (all_configmap_names 2) (all_service_fqdns 2)
           (all_configmap_names 2) (all_service_fqdns 2) 7 7).
  - lia.
  - lia.
  - vm_compute. reflexivity.
  - vm_compute. reflexivity.
Defined.

(** ** The output of a run *)





(** X8: A slash at the end of the output directory changes nothing below it:
    with [--output d] and with [--output d/] (for [d] not empty and not
    itself ending with a slash) the release directories created and the
    files written are the same, with the same contents. *)
Theorem output_trailing_slash n d h h' :
  1 ≤ n → d ≠ "" → Py.ends_with_slash d = false →
  tail (fs_events (Py.run h (Py.main n (Some (d +:+ "/")))).2)
  = tail (fs_events (Py.run h' (Py.main n (Some d))).2).
Proof.
  intros Hn Hd Hslash. rewrite !fs_events_main by done. cbn [tail].
  assert (Py.or_default (Some d)
            ("/tmp/h2c-torture-" +:+ fmt_d 0 n +:+ "/manifests") = d) as ->.
  { cbn. by destruct (String.eqb_spec d ""). }
  assert (Py.or_default (Some (d +:+ "/"))
            ("/tmp/h2c-torture-" +:+ fmt_d 0 n +:+ "/manifests") = d +:+ "/")
    as ->.
  { cbn. destruct (String.eqb_spec (d +:+ "/") "") as [Heq|]; [|done].
    by destruct d. }
  rewrite ends_with_slash_app by done. by rewrite Hslash.
Qed.

Lemma output_trailing_slash_witness :
  tail (fs_events (Py.run ∅ (Py.main 2 (Some ("/tmp/foo" +:+ "/")))).2)
  = tail (fs_events (Py.run ∅ (Py.main 2 (Some "/tmp/foo"))).2).
Proof.
  apply (output_trailing_slash 2 "/tmp/foo" ∅ ∅).
  - lia.
  - discriminate.
  - reflexivity.
Defined.

(** ** Arguments that are not those of the pipeline *)

(** X9: [generate_release] takes the two name lists as they come, whatever
    their length: in a Deployment the volumeMounts and the volumes are named
    [cm-idx] for [idx] from 0 to [len(cm_names) - 1], in the same order, so
    every volumeMount has the volume of its name; these names are pairwise
    distinct; the volumes are bound to the names of [cm_names] in order; and
    there is one [SVC_idx] variable per element of [fqdns].  (Names that fit
    on one line each.) *)
Theorem mounts_match_volumes r n cm_names fqdns i :
  Forall (λ s, newline_free s = true) cm_names →
  Forall (λ s, newline_free s = true) fqdns →
  let d := deployment_doc r n cm_names fqdns i in
  following 0 (starts_with "            - name: cm-") (lines d)
    = (λ idx, "            - name: cm-" +:+ fmt_d 4 idx) <$> range (len cm_names) ∧
  following 0 (starts_with "        - name: cm-") (lines d)
    = (λ idx, "        - name: cm-" +:+ fmt_d 4 idx) <$> range (len cm_names) ∧
  following 2 (starts_with "        - name: cm-") (lines d)
    = (λ name, "            name: " +:+ name) <$> cm_names ∧
  NoDup (fmt_d 4 <$> range (len cm_names)) ∧
  following 0 (starts_with "            - name: SVC_") (lines d)
    = (λ idx, "            - name: SVC_" +:+ fmt_d 4 idx) <$> range (len fqdns).
Proof.
  intros Hcm Hfq d. subst d.
  rewrite !following_deployment_doc by (intros; first [done | apply closed_0]).
  drop_empty_blocks. drop_fixed_lines. split_and!.
  - by apply bind_singleton.
  - rewrite (bind_singleton _ (λ x, "        - name: cm-" +:+ fmt_d 4 x.1))
      by done.
    by rewrite <- enumerate_fst, <- list_fmap_compose.
  - rewrite (bind_singleton _ (λ x, "            name: " +:+ x.2)) by done.
    rewrite <- (enumerate_snd cm_names) at 2.
    by rewrite <- list_fmap_compose.
  - apply NoDup_fmap_2_strong; [|apply NoDup_seqZ].
    intros x y [Hx _]%elem_of_seqZ [Hy _]%elem_of_seqZ.
    by apply fmt_d_inj.
  - rewrite (bind_singleton _ (λ x, "            - name: SVC_" +:+ fmt_d 4 x.1))
      by done.
    by rewrite <- enumerate_fst, <- list_fmap_compose.
Qed.

Lemma mounts_match_volumes_witness :
  let cm_names := ["alpha"; "beta"; "gamma"] in
  let fqdns := ["one.example"] in
  let d := deployment_doc 0 1 cm_names fqdns 0 in
  following 0 (starts_with "            - name: cm-") (lines d)
    = (λ idx, "            - name: cm-" +:+ fmt_d 4 idx) <$> range (len cm_names) ∧
  following 0 (starts_with "        - name: cm-") (lines d)
    = (λ idx, "        - name: cm-" +:+ fmt_d 4 idx) <$> range (len cm_names) ∧
  following 2 (starts_with "        - name: cm-") (lines d)
    = (λ name, "            name: " +:+ name) <$> cm_names ∧
  NoDup (fmt_d 4 <$> range (len cm_names)) ∧
  following 0 (starts_with "            - name: SVC_") (lines d)
    = (λ idx, "            - name: SVC_" +:+ fmt_d 4 idx) <$> range (len fqdns).
Proof.
  apply (mounts_match_volumes 0 1 ["alpha"; "beta"; "gamma"] ["one.example"] 0).
  - apply (bool_decide_unpack _). vm_compute. exact I.
  - apply (bool_decide_unpack _). vm_compute. exact I.
Defined.

(** X10: [generate_release] itself does not reject a scale factor below 1: for
    [n <= 0] no loop runs, and the text is a single Ingress document, without
    separator line, whose [paths:] key is followed by an empty line. *)
Theorem generate_release_nonpositive r n cm_names fqdns :
  n ≤ 0 →
  release_docs r n cm_names fqdns = [ingress_doc r n] ∧
  lines (generate_release r n cm_names fqdns)
  = ["apiVersion: networking.k8s.io/v1";
     "kind: Ingress";
     "metadata:";
     "  name: r" +:+ fmt_d 3 r +:+ "-ingress";
     "  namespace: default";
     "  annotations:";
     "    kubernetes.io/ingress.class: haproxy";
     "spec:";
     "  rules:";
     "    - host: r" +:+ fmt_d 3 r +:+ ".example.com";
     "      http:";
     "        paths:";
     "";
     ""].
Proof.
  intros Hn.
  assert (range n = []) as Hrange by (by apply seqZ_nil).
  assert (release_docs r n cm_names fqdns = [ingress_doc r n]) as Hdocs
    by (by rewrite release_docs_eq, Hrange).
  split; [done|].
  unfold generate_release. rewrite Hdocs. cbn [join String.concat].
  rewrite lines_ingress_doc. unfold ingress_lines. by rewrite Hrange.
Qed.

Lemma generate_release_nonpositive_witness :
  release_docs 5 0 ["a"] ["b"] = [ingress_doc 5 0] ∧
  lines (generate_release 5 0 ["a"] ["b"])
  = ["apiVersion: networking.k8s.io/v1";
     "kind: Ingress";
     "metadata:";
     "  name: r" +:+ fmt_d 3 5 +:+ "-ingress";
     "  namespace: default";
     "  annotations:";
     "    kubernetes.io/ingress.class: haproxy";
     "spec:";
     "  rules:";
     "    - host: r" +:+ fmt_d 3 5 +:+ ".example.com";
     "      http:";
     "        paths:";
     "";
     ""].
Proof. apply (generate_release_nonpositive 5 0 ["a"] ["b"]). lia. Defined.

(** X11: With empty name lists a Deployment is still produced: the keys [env:],
    [volumeMounts:] and [volumes:] are each followed by an empty line
    instead of entries. *)
Theorem empty_lists_leave_empty_blocks r n i :
  has_block ["          env:"; ""; "          envFrom:"]
    (lines (deployment_doc r n [] [] i)) ∧
  has_block ["          volumeMounts:"; ""; "        - name: sidecar"]
    (lines (deployment_doc r n [] [] i)) ∧
  has_block ["      volumes:"; ""; ""]
    (lines (deployment_doc r n [] [] i)).
Proof.
  rewrite lines_deployment_doc_gen.
  change (lines (env_vars [])) with [""].
  change (lines (volumes [])) with [""].
  change (block (idx ← range (len []); volume_mount_lines idx)) with [""].
  split_and!.
  - exists (take 26 (deployment_head r i)),
      (block (j ← range n; env_from_lines r j)
       ++ ["          volumeMounts:"] ++ [""] ++ deployment_sidecar ++ [""] ++ [""]).
    done.
  - exists (deployment_head r i ++ [""] ++ ["          envFrom:"]
            ++ block (j ← range n; env_from_lines r j)),
      (tail deployment_sidecar ++ [""] ++ [""]).
    by rewrite <- !app_assoc.
  - exists (deployment_head r i ++ [""] ++ ["          envFrom:"]
            ++ block (j ← range n; env_from_lines r j)
            ++ ["          volumeMounts:"] ++ [""] ++ take 3 deployment_sidecar),
      [].
    by rewrite <- !app_assoc.
Qed.

(** ** The cost summary *)



(** ** What the Deployments share and what they do not *)

(** X13: The references to ConfigMaps and to services are the same in every
    Deployment of every release built from the same two lists: same
    volumeMounts with the same paths, same volumes with the same bindings,
    same variables with the same values.  The references to Secrets are
    not shared: two Deployments of different releases have no secret
    reference in common.  (Names that fit on one line each.) *)
Theorem references_shared_except_secrets r r' n cm_names fqdns i i' :
  Forall (λ s, newline_free s = true) cm_names →
  Forall (λ s, newline_free s = true) fqdns →
  0 ≤ r → 0 ≤ r' → r ≠ r' →
  let d := deployment_doc r n cm_names fqdns i in
  let d' := deployment_doc r' n cm_names fqdns i' in
  following 0 (starts_with "            - name: cm-") (lines d)
    = following 0 (starts_with "            - name: cm-") (lines d') ∧
  following 1 (starts_with "            - name: cm-") (lines d)
    = following 1 (starts_with "            - name: cm-") (lines d') ∧
  following 0 (starts_with "        - name: cm-") (lines d)
    = following 0 (starts_with "        - name: cm-") (lines d') ∧
  following 2 (starts_with "        - name: cm-") (lines d)
    = following 2 (starts_with "        - name: cm-") (lines d') ∧
  following 0 (starts_with "            - name: SVC_") (lines d)
    = following 0 (starts_with "            - name: SVC_") (lines d') ∧
  following 1 (starts_with "            - name: SVC_") (lines d)
    = following 1 (starts_with "            - name: SVC_") (lines d') ∧
  (∀ s, s ∈ following 1 (String.eqb "            - secretRef:") (lines d) →
        s ∉ following 1 (String.eqb "            - secretRef:") (lines d')).
Proof.
  intros Hcm Hfq Hr Hr' Hne d d'. subst d d'.
  split_and!;
    try (rewrite !following_deployment_doc
           by (intros; first [done | apply closed_0]);
         drop_empty_blocks; by drop_fixed_lines).
  rewrite !following_secret_refs by done.
  intros s (j & -> & _)%list_elem_of_fmap (j' & Heq & _)%list_elem_of_fmap.
  by apply secret_ref_release_inj in Heq.
Qed.

Lemma references_shared_except_secrets_witness :
  let d := deployment_doc 0 2 (all_configmap_names 2) (all_service_fqdns 2) 0 in
  let d' := deployment_doc 1 2 (all_configmap_names 2) (all_service_fqdns 2) 1 in
  following 0 (starts_with "            - name: cm-") (lines d)
    = following 0 (starts_with "            - name: cm-") (lines d') ∧
  following 1 (starts_with "            - name: cm-") (lines d)
    = following 1 (starts_with "            - name: cm-") (lines d') ∧
  following 0 (starts_with "        - name: cm-") (lines d)
    = following 0 (starts_with "        - name: cm-") (lines d') ∧
  following 2 (starts_with "        - name: cm-") (lines d)
    = following 2 (starts_with "        - name: cm-") (lines d') ∧
  following 0 (starts_with "            - name: SVC_") (lines d)
    = following 0 (starts_with "            - name: SVC_") (lines d') ∧
  following 1 (starts_with "            - name: SVC_") (lines d)
    = following 1 (starts_with "            - name: SVC_") (lines d') ∧
  (∀ s, s ∈ following 1 (String.eqb "            - secretRef:") (lines d) →
        s ∉ following 1 (String.eqb "            - secretRef:") (lines d')).
Proof.
  apply (references_shared_except_secrets 0 1 2
           (all_configmap_names 2) (all_service_fqdns 2) 0 1).
  - apply (bool_decide_unpack _). vm_compute. exact I.
  - apply (bool_decide_unpack _). vm_compute. exact I.
  - lia.
  - lia.
  - lia.
Defined.
